(** * Embedding service: pooling, normalisation, batch scheduling

    A shallow embedding of [embedings.py] (class [OptimizedEmbeddingService])
    and of the [/embed] and [/embed/batch] routes of [api.py].

    Modelling choices.
    - Python exceptions are values: every fallible step returns [res A].
    - A [torch.Tensor] is a shape together with an indexing function. The
      float32 values are modelled as real numbers and the operations on
      them as exact: the model neither rounds nor overflows. What is
      stated about values is therefore limited to which operations are
      applied and to results that are exactly zero, which float32 shares.
    - The tokenizer and the encoder are external (HuggingFace): they are
      fields of the service record, and may raise.
    - The thread pool is modelled by the order in which the submitted chunk
      tasks complete; that order is derived from an arbitrary oracle. Every
      order is taken for possible, which a pool of few workers is not bound
      to allow: statements about [embed_async] are made for every oracle. *)

From Stdlib Require Import Reals Lra Lia ZArith String List Bool Arith Permutation.
Import ListNotations.

Set Implicit Arguments.

(** ** Exceptions and the result monad *)

Inductive exn : Type :=
| ValueError (msg : string)
| IndexError (msg : string)
| TypeError (msg : string)
| RuntimeError (msg : string)
| External (code : nat).

Inductive res (A : Type) : Type :=
| Ok (a : A)
| Raise (e : exn).

Arguments Ok {A} a.
Arguments Raise {A} e.

Definition bind {A B : Type} (m : res A) (k : A -> res B) : res B :=
  match m with
  | Ok a => k a
  | Raise e => Raise e
  end.

Notation "x <- m ;; k" := (bind m (fun x => k))
  (at level 61, m at next level, right associativity).

(** What the caller gets back when the call returns, [None] when it raises. *)
Definition returned {A : Type} (m : res A) : option A :=
  match m with
  | Ok a => Some a
  | Raise _ => None
  end.

(** ** Python values handed to the caller *)

#[warnings="-register-all"]
Inductive pyval : Type :=
| PyFloat (x : R)
| PyList (items : list pyval).

Definition py_vector (v : list R) : pyval := PyList (map PyFloat v).

Definition py_matrix (rows : list (list R)) : pyval := PyList (map py_vector rows).

(** [isinstance(v, list)] *)
Definition isinstance_list (v : pyval) : bool :=
  match v with
  | PyList _ => true
  | PyFloat _ => false
  end.

(** [v[0]] *)
Definition getitem0 (v : pyval) : res pyval :=
  match v with
  | PyList (x :: _) => Ok x
  | PyList [] => Raise (IndexError "list index out of range")
  | PyFloat _ => Raise (TypeError "'float' object is not subscriptable")
  end.

(** [len(v)] *)
Definition py_len (v : pyval) : res Z :=
  match v with
  | PyList l => Ok (Z.of_nat (length l))
  | PyFloat _ => Raise (TypeError "object of type 'float' has no len()")
  end.

(** ** Tensors and arrays *)

Record Tensor3 : Type := mkT3 {
  t3_d0 : nat;
  t3_d1 : nat;
  t3_d2 : nat;
  t3_at : nat -> nat -> nat -> R
}.

Record Tensor2 : Type := mkT2 {
  t2_d0 : nat;
  t2_d1 : nat;
  t2_at : nat -> nat -> R
}.

(** Integer tensor, as the tokenizer returns them. *)
Record LongTensor2 : Type := mkL2 {
  l2_d0 : nat;
  l2_d1 : nat;
  l2_at : nat -> nat -> Z
}.

(** A two-dimensional [numpy.ndarray]: its column count and its rows. *)
Record ndarray : Type := mkNd {
  nd_cols : nat;
  nd_rows : list (list R)
}.

(** [sum_upto f n] is f 0 + ... + f (n-1). *)
Fixpoint sum_upto (f : nat -> R) (n : nat) : R :=
  match n with
  | O => 0%R
  | S k => (sum_upto f k + f k)%R
  end.

(** The L2 norm of a returned vector. *)
Definition l2_norm (v : list R) : R :=
  sqrt (fold_right (fun x acc => (x * x + acc)%R) 0%R v).

(** The L2 norm of row [b] of a tensor, [x.norm(2, dim=1)]. *)
Definition row_norm (x : Tensor2) (b : nat) : R :=
  sqrt (sum_upto (fun h => (t2_at x b h * t2_at x b h)%R) (t2_d1 x)).

Definition row_of (x : Tensor2) (b : nat) : list R :=
  map (t2_at x b) (seq 0 (t2_d1 x)).

(** [x.cpu().numpy()] *)
Definition to_numpy (x : Tensor2) : ndarray :=
  mkNd (t2_d1 x) (map (row_of x) (seq 0 (t2_d0 x))).

(** [a.tolist()] *)
Definition tolist (a : ndarray) : pyval := py_matrix (nd_rows a).

(** [np.vstack(arrays)]: needs at least one array, and equal column counts. *)
Definition vstack (arrays : list ndarray) : res ndarray :=
  match arrays with
  | [] => Raise (ValueError "need at least one array to concatenate")
  | a :: rest =>
      if forallb (fun b => nd_cols b =? nd_cols a) rest
      then Ok (mkNd (nd_cols a) (concat (map nd_rows arrays)))
      else Raise (ValueError "all the input array dimensions except for the concatenation axis must match exactly")
  end.

(** ** Pooling and normalisation *)

Definition pool_eps : R := 1e-9%R.
Definition norm_eps : R := 1e-12%R.

(** [attention_mask.unsqueeze(-1).expand(size).float()]: a dimension of the
    mask must equal the target dimension or be 1. *)
Definition expand_mask (mask : LongTensor2) (d0 d1 d2 : nat) : res Tensor3 :=
  if ((l2_d0 mask =? d0) || (l2_d0 mask =? 1)) &&
     ((l2_d1 mask =? d1) || (l2_d1 mask =? 1))
  then Ok (mkT3 d0 d1 d2
             (fun b s _ => IZR (l2_at mask (if l2_d0 mask =? d0 then b else 0)
                                           (if l2_d1 mask =? d1 then s else 0))))
  else Raise (RuntimeError "The expanded size of the tensor must match the existing size").

(** [torch.sum(x, 1)] *)
Definition sum_dim1 (x : Tensor3) : Tensor2 :=
  mkT2 (t3_d0 x) (t3_d2 x) (fun b h => sum_upto (fun s => t3_at x b s h) (t3_d1 x)).

(** [x * y] on tensors of the same shape. *)
Definition mul3 (x y : Tensor3) : Tensor3 :=
  mkT3 (t3_d0 x) (t3_d1 x) (t3_d2 x)
       (fun b s h => (t3_at x b s h * t3_at y b s h)%R).

(** [torch.clamp(x, min=lo)] *)
Definition clamp_min (x : Tensor2) (lo : R) : Tensor2 :=
  mkT2 (t2_d0 x) (t2_d1 x) (fun b h => Rmax (t2_at x b h) lo).

(** [x / y] on tensors of the same shape. *)
Definition div2 (x y : Tensor2) : Tensor2 :=
  mkT2 (t2_d0 x) (t2_d1 x) (fun b h => (t2_at x b h / t2_at y b h)%R).

Definition _mean_pooling (token_embeddings : Tensor3) (attention_mask : LongTensor2)
  : res Tensor2 :=
  input_mask_expanded <-
    expand_mask attention_mask
      (t3_d0 token_embeddings) (t3_d1 token_embeddings) (t3_d2 token_embeddings) ;;
  let sum_embeddings := sum_dim1 (mul3 token_embeddings input_mask_expanded) in
  let sum_mask := clamp_min (sum_dim1 input_mask_expanded) pool_eps in
  Ok (div2 sum_embeddings sum_mask).

(** [torch.nn.functional.normalize(x, p=2, dim=1)], with torch's default
    [eps = 1e-12]: every row is divided by [max(norm, eps)]. *)
Definition normalize (x : Tensor2) : Tensor2 :=
  mkT2 (t2_d0 x) (t2_d1 x)
       (fun b h => (t2_at x b h / Rmax (row_norm x b) norm_eps)%R).

(** ** The service *)

(** The dictionary the tokenizer returns. *)
Record Encoded : Type := mkEncoded {
  input_ids : LongTensor2;
  attention_mask : LongTensor2
}.

(** The encoder returns a tuple or an object with [last_hidden_state]. *)
Inductive ModelOutput : Type :=
| OutTuple (items : list Tensor3)
| OutObject (last_hidden_state : Tensor3).

Record OptimizedEmbeddingService : Type := mkService {
  batch_size : Z;
  max_length : Z;
  tokenizer : list string -> Z -> res Encoded;
  model : Encoded -> res ModelOutput
}.

(** [outputs[0]] for a tuple, [outputs.last_hidden_state] otherwise. *)
Definition last_hidden_state_of (outputs : ModelOutput) : res Tensor3 :=
  match outputs with
  | OutTuple (t :: _) => Ok t
  | OutTuple [] => Raise (IndexError "tuple index out of range")
  | OutObject t => Ok t
  end.

(** Tokenize, run the encoder, pool, normalise, hand over as an array.
    Moving tensors to the device does not change their values. *)
Definition _embed_batch (self : OptimizedEmbeddingService) (texts : list string)
  : res ndarray :=
  encoded <- tokenizer self texts (max_length self) ;;
  outputs <- model self encoded ;;
  last_hidden_state <- last_hidden_state_of outputs ;;
  embeddings <- _mean_pooling last_hidden_state (attention_mask encoded) ;;
  let embeddings := normalize embeddings in
  Ok (to_numpy embeddings).

(** ** Chunking *)

(** The values a [range] with a positive step yields: [i], [i + step], ...
    while below [stop]. *)
Fixpoint range_up (fuel : nat) (i stop step : Z) : list Z :=
  match fuel with
  | O => []
  | S f => if (i <? stop)%Z then i :: range_up f (i + step) stop step else []
  end.

(** The same for a negative step: while above [stop]. *)
Fixpoint range_down (fuel : nat) (i stop step : Z) : list Z :=
  match fuel with
  | O => []
  | S f => if (stop <? i)%Z then i :: range_down f (i + step) stop step else []
  end.

(** [range(start, stop, step)] *)
Definition py_range (start stop step : Z) : res (list Z) :=
  if (step =? 0)%Z then Raise (ValueError "range() arg 3 must not be zero")
  else if (0 <? step)%Z then Ok (range_up (Z.to_nat (stop - start)) start stop step)
  else Ok (range_down (Z.to_nat (start - stop)) start stop step).

(** A slice bound, as Python clips it: negative bounds count from the end. *)
Definition clip_index (len k : Z) : Z :=
  if (k <? 0)%Z then Z.max 0 (k + len) else Z.min k len.

(** [l[i:j]] *)
Definition py_slice {A : Type} (l : list A) (i j : Z) : list A :=
  let len := Z.of_nat (length l) in
  let lo := clip_index len i in
  let hi := clip_index len j in
  firstn (Z.to_nat (hi - lo)) (skipn (Z.to_nat lo) l).

(** The argument of [embed_sync] and [embed_async]: [Union[str, List[str]]]. *)
Inductive texts_arg : Type :=
| Str (s : string)
| Lst (l : list string).

(** [[texts[i:i + B] for i in range(0, len(texts), B)]] *)
Definition batches_of (self : OptimizedEmbeddingService) (texts : list string)
  : res (list (list string)) :=
  idxs <- py_range 0 (Z.of_nat (length texts)) (batch_size self) ;;
  Ok (map (fun i => py_slice texts i (i + batch_size self)) idxs).

(** ** The synchronous entry point *)

(** The body of the [for] loop of [embed_sync], over the remaining indices. *)
Fixpoint sync_loop (self : OptimizedEmbeddingService) (texts : list string)
    (idxs : list Z) (all_embeddings : list ndarray) : res (list ndarray) :=
  match idxs with
  | [] => Ok all_embeddings
  | i :: rest =>
      let batch := py_slice texts i (i + batch_size self) in
      batch_embeddings <- _embed_batch self batch ;;
      sync_loop self texts rest (all_embeddings ++ [batch_embeddings])
  end.

Definition embed_sync (self : OptimizedEmbeddingService) (texts : texts_arg)
  : res pyval :=
  let '(texts, single_input) :=
    match texts with
    | Str s => ([s], true)
    | Lst l => (l, false)
    end in
  idxs <- py_range 0 (Z.of_nat (length texts)) (batch_size self) ;;
  all_embeddings <- sync_loop self texts idxs [] ;;
  all_embeddings <- vstack all_embeddings ;;
  let result := tolist all_embeddings in
  if single_input then getitem0 result else Ok result.

(** ** The thread pool and the asynchronous entry point *)

Definition remove_at {A : Type} (k : nat) (l : list A) : list A :=
  firstn k l ++ skipn (S k) l.

(** The order in which [n] submitted tasks complete. Nothing is known about
    the pool's timing, so the order is driven by an arbitrary oracle: at each
    step the oracle's head selects one of the tasks still pending. *)
Fixpoint pick_order (fuel : nat) (oracle : list nat) (pending : list nat) : list nat :=
  match fuel with
  | O => []
  | S f =>
      match pending with
      | [] => []
      | p0 :: _ =>
          let k := Nat.modulo (hd 0 oracle) (length pending) in
          nth k pending p0 :: pick_order f (tl oracle) (remove_at k pending)
      end
  end.

Definition completion_order (oracle : list nat) (n : nat) : list nat :=
  pick_order n oracle (seq 0 n).

(** The exception of the first task, in completion order, that raised. *)
Fixpoint first_exception {A : Type} (order : list nat) (tasks : list (res A))
  : option exn :=
  match order with
  | [] => None
  | i :: rest =>
      match nth_error tasks i with
      | Some (Raise e) => Some e
      | _ => first_exception rest tasks
      end
  end.

(** The results of the tasks, by position. *)
Fixpoint results_in_order {A : Type} (tasks : list (res A)) : res (list A) :=
  match tasks with
  | [] => Ok []
  | t :: rest =>
      a <- t ;;
      l <- results_in_order rest ;;
      Ok (a :: l)
  end.

(** [await asyncio.gather] over the tasks: the first exception to occur is raised to
    the awaiter; otherwise the results are listed by position. *)
Definition gather {A : Type} (order : list nat) (tasks : list (res A)) : res (list A) :=
  match first_exception order tasks with
  | Some e => Raise e
  | None => results_in_order tasks
  end.

Definition embed_async (self : OptimizedEmbeddingService) (oracle : list nat)
    (texts : texts_arg) : res pyval :=
  let '(texts, single_input) :=
    match texts with
    | Str s => ([s], true)
    | Lst l => (l, false)
    end in
  batches <- batches_of self texts ;;
  let tasks := map (_embed_batch self) batches in
  batch_results <- gather (completion_order oracle (length tasks)) tasks ;;
  all_embeddings <- vstack batch_results ;;
  let result := tolist all_embeddings in
  if single_input then getitem0 result else Ok result.

Definition get_embedding_dimension (self : OptimizedEmbeddingService) : res Z :=
  dummy_embedding <- embed_sync self (Str "test") ;;
  py_len dummy_embedding.

(** ** The HTTP routes of [api.py] *)

Module Api.

Inductive http_result : Type :=
| EmbeddingResponse (embeddings : pyval) (dimension : Z) (count : Z)
| HTTPException (status_code : Z) (detail : string).

(** [str(e)] *)
Definition exn_str (e : exn) : string :=
  match e with
  | ValueError m | IndexError m | TypeError m | RuntimeError m => m
  | External _ => EmptyString
  end.

Definition error_500 (e : exn) : http_result :=
  HTTPException 500 ("Error generating embeddings: " ++ exn_str e).

(** [POST /embed]. [embedding_service] is the module's global, [None] before
    start-up. *)
Definition embed (embedding_service : option OptimizedEmbeddingService)
    (oracle : list nat) (query : texts_arg) : http_result :=
  match embedding_service with
  | None => HTTPException 503 "Service not initialized"
  | Some svc =>
      let body :=
        embeddings <- embed_async svc oracle query ;;
        first <- getitem0 embeddings ;;
        if isinstance_list first then
          count <- py_len embeddings ;;
          dimension <- py_len first ;;
          Ok (EmbeddingResponse embeddings dimension count)
        else
          dimension <- py_len embeddings ;;
          Ok (EmbeddingResponse embeddings dimension 1)
      in
      match body with
      | Ok response => response
      | Raise e => error_500 e
      end
  end.

(** [POST /embed/batch] *)
Definition embed_batch (embedding_service : option OptimizedEmbeddingService)
    (oracle : list nat) (queries : list string) : http_result :=
  match embedding_service with
  | None => HTTPException 503 "Service not initialized"
  | Some svc =>
      match queries with
      | [] => HTTPException 400 "Query list cannot be empty"
      | _ =>
          let body :=
            embeddings <- embed_async svc oracle (Lst queries) ;;
            first <- getitem0 embeddings ;;
            dimension <- py_len first ;;
            count <- py_len embeddings ;;
            Ok (EmbeddingResponse embeddings dimension count)
          in
          match body with
          | Ok response => response
          | Raise e => error_500 e
          end
      end
  end.

End Api.

(** ** Small concrete services, used to run the definitions *)

Module Toy.

Definition longest (texts : list string) : nat :=
  fold_right Nat.max 0 (map String.length texts).

(** One token per character and no special tokens, padded to the longest
    text of the batch (at least one position): the empty string is padding
    only. *)
Definition char_tokenizer (texts : list string) (max_length : Z) : res Encoded :=
  let s := Nat.max 1 (Nat.min (longest texts) (Z.to_nat max_length)) in
  Ok (mkEncoded
        (mkL2 (length texts) s (fun _ _ => 7%Z))
        (mkL2 (length texts) s
              (fun b t => if t <? String.length (nth b texts EmptyString)
                          then 1%Z else 0%Z))).

(** Every text becomes the single token [CLS]. *)
Definition cls_tokenizer (texts : list string) (max_length : Z) : res Encoded :=
  Ok (mkEncoded
        (mkL2 (length texts) 1 (fun _ _ => 101%Z))
        (mkL2 (length texts) 1 (fun _ _ => 1%Z))).

(** An encoder with hidden size 2 whose token vectors are all (3, 4). *)
Definition const_model (encoded : Encoded) : res ModelOutput :=
  Ok (OutObject
        (mkT3 (l2_d0 (input_ids encoded)) (l2_d1 (input_ids encoded)) 2
              (fun _ _ h => if h =? 0 then 3%R else 4%R))).

(** An encoder that runs out of memory on batches of more than one text. *)
Definition fragile_model (encoded : Encoded) : res ModelOutput :=
  if 1 <? l2_d0 (input_ids encoded) then Raise (External 137)
  else const_model encoded.

Definition padded_service : OptimizedEmbeddingService :=
  mkService 32 512 char_tokenizer const_model.

Definition cls_service (B : Z) : OptimizedEmbeddingService :=
  mkService B 512 cls_tokenizer const_model.

Definition fragile_service : OptimizedEmbeddingService :=
  mkService 2 512 cls_tokenizer fragile_model.

(** The token vectors and the mask of a batch of two texts of which the
    second is padding only. *)
Definition two_texts_tokens : Tensor3 :=
  mkT3 2 2 2 (fun _ _ h => if h =? 0 then 3%R else 4%R).

Definition second_row_padding : LongTensor2 :=
  mkL2 2 2 (fun b _ => if b =? 0 then 1%Z else 0%Z).

End Toy.

(** ** Construction of the service, health route and start-up *)

(** [torch.device]: the three backends [_get_optimal_device] chooses from. *)
Inductive Device : Type :=
| cuda
| mps
| cpu.

(** [str(device)] *)
Definition device_str (d : Device) : string :=
  match d with
  | cuda => "cuda"
  | mps => "mps"
  | cpu => "cpu"
  end.

(** What the constructor reads from torch and from the model hub. *)
Record TorchEnv : Type := mkEnv {
  cuda_is_available : bool;
  mps_is_available : bool;
  get_num_threads : Z;
  tokenizer_from_pretrained : string -> res (list string -> Z -> res Encoded);
  model_from_pretrained : string -> res (Encoded -> res ModelOutput)
}.

Definition _get_optimal_device (env : TorchEnv) : Device :=
  if cuda_is_available env then cuda
  else if mps_is_available env then mps
  else cpu.

(** [ThreadPoolExecutor(max_workers=n)]: the pool, known by its size. *)
Definition ThreadPoolExecutor (max_workers : Z) : res Z :=
  if (max_workers <=? 0)%Z
  then Raise (ValueError "max_workers must be greater than 0")
  else Ok max_workers.

(** The attributes of a constructed service: the fields the entry points
    use, and those only the constructor and the health route use. *)
Record ServiceInstance : Type := mkInstance {
  core : OptimizedEmbeddingService;
  model_name : string;
  device : Device;
  executor : Z
}.

(** [x or 8] on integers. *)
Definition or_8 (x : Z) : Z := if (x =? 0)%Z then 8%Z else x.

(** [torch.set_num_threads(n)]: refuses a count that is not positive. *)
Definition set_num_threads (n : Z) : res unit :=
  if (n <=? 0)%Z
  then Raise (RuntimeError "set_num_threads expects a positive integer")
  else Ok tt.

(** The constructor. Printing and moving the model to the device change
    nothing that is modelled; on cpu the thread count is set to its current
    value, which leaves it as it is when the call is accepted. *)
Definition __init__ (env : TorchEnv) (model_name : string)
    (max_workers : option Z) (batch_size max_length : Z) : res ServiceInstance :=
  let device := _get_optimal_device env in
  tokenizer <- tokenizer_from_pretrained env model_name ;;
  model <- model_from_pretrained env model_name ;;
  _ <- match device with
       | cpu => set_num_threads (get_num_threads env)
       | _ => Ok tt
       end ;;
  let max_workers :=
    match max_workers with
    | None => Z.min 32 (or_8 (get_num_threads env))
    | Some w => w
    end in
  executor <- ThreadPoolExecutor max_workers ;;
  Ok (mkInstance (mkService batch_size max_length tokenizer model)
                 model_name device executor).

Module Lifecycle.

Inductive health_result : Type :=
| HealthResponse (status model device : string) (embedding_dimension : Z)
| HealthException (status_code : Z) (detail : string).

(** [GET /health]. The probe is not inside a [try]: its exception leaves
    the route. *)
Definition health (embedding_service : option ServiceInstance)
  : res health_result :=
  match embedding_service with
  | None => Ok (HealthException 503 "Service not initialized")
  | Some svc =>
      embedding_dimension <- get_embedding_dimension (core svc) ;;
      Ok (HealthResponse "healthy" (model_name svc) (device_str (device svc))
                         embedding_dimension)
  end.

(** The start-up half of [lifespan]: the value bound to the global
    [embedding_service] when start-up completes. *)
Definition lifespan_startup (env : TorchEnv) : res ServiceInstance :=
  embedding_service <-
    __init__ env "togethercomputer/m2-bert-80M-32k-retrieval" None 32 512 ;;
  _ <- get_embedding_dimension (core embedding_service) ;;
  Ok embedding_service.

End Lifecycle.

(** A torch environment with the unified-memory accelerator in which torch
    reports no thread. *)
Definition idle_mps_env : TorchEnv :=
  mkEnv false true 0
        (fun _ => Ok Toy.cls_tokenizer)
        (fun _ => Ok Toy.const_model).

(** A torch environment for the small services: no accelerator, four
    threads, and a hub that knows every model name. *)
Definition toy_env : TorchEnv :=
  mkEnv false false 4
        (fun _ => Ok Toy.cls_tokenizer)
        (fun _ => Ok Toy.const_model).

(** More small services and tensors. *)

Module ToyFailures.

(** An encoder that fails on batches of fewer than two texts. *)
Definition short_batch_fails_model (encoded : Encoded) : res ModelOutput :=
  if l2_d0 (input_ids encoded) <? 2 then Raise (External 1)
  else Toy.const_model encoded.

Definition short_batch_fails_service : OptimizedEmbeddingService :=
  mkService 2 512 Toy.cls_tokenizer short_batch_fails_model.

(** An encoder that always fails, with the size of the batch as its code. *)
Definition counting_failure_model (encoded : Encoded) : res ModelOutput :=
  Raise (External (l2_d0 (input_ids encoded))).

Definition counting_failure_service : OptimizedEmbeddingService :=
  mkService 2 512 Toy.cls_tokenizer counting_failure_model.

(** [Toy.two_texts_tokens] with other vectors at the second text. *)
Definition two_texts_tokens_alt : Tensor3 :=
  mkT3 2 2 2 (fun b _ h => if b =? 0 then (if h =? 0 then 3%R else 4%R)
                           else 99%R).

Definition cls_instance : ServiceInstance :=
  mkInstance (Toy.cls_service 32) "cls" cpu 4.

Definition failing_instance : ServiceInstance :=
  mkInstance counting_failure_service "failing" cpu 4.

End ToyFailures.

(** ** Vocabulary of the statements *)

(** The list of texts a request stands for. *)
Definition texts_of (x : texts_arg) : list string :=
  match x with
  | Str s => [s]
  | Lst l => l
  end.

(** The [k]-th chunk of size [b] of a list. *)
Definition nth_chunk {A : Type} (b : nat) (l : list A) (k : nat) : list A :=
  firstn b (skipn (k * b) l).

(** The number of chunks of [n] texts for batch size [B]. *)
Definition chunk_count (n : nat) (B : Z) : nat :=
  Z.to_nat ((Z.of_nat n + B - 1) / B).

(** The last hidden state the tokenizer and the encoder produce for a batch. *)
Definition hidden_states (self : OptimizedEmbeddingService) (texts : list string)
  : res Tensor3 :=
  encoded <- tokenizer self texts (max_length self) ;;
  outputs <- model self encoded ;;
  last_hidden_state_of outputs.

(** The encoder has hidden size [D] and returns one row of token vectors per
    text of the batch. *)
Definition well_shaped (self : OptimizedEmbeddingService) (D : nat) : Prop :=
  forall texts t,
    hidden_states self texts = Ok t ->
    t3_d0 t = length texts /\ t3_d2 t = D.

(** The shape of the value returned for request [x] when the stacked rows
    are [vs]: the first row for a single string, all the rows for a list. *)
Definition shaped_as (x : texts_arg) (vs : list (list R)) : res pyval :=
  match x with
  | Str _ => getitem0 (py_matrix vs)
  | Lst _ => Ok (py_matrix vs)
  end.

(** The pooled tensor of a batch: [_embed_batch] up to the normalisation. *)
Definition pooled_batch (self : OptimizedEmbeddingService) (texts : list string)
  : res Tensor2 :=
  encoded <- tokenizer self texts (max_length self) ;;
  outputs <- model self encoded ;;
  last_hidden_state <- last_hidden_state_of outputs ;;
  _mean_pooling last_hidden_state (attention_mask encoded).





(** * Properties *)

Local Open Scope R_scope.

Lemma pool_eps_pos : 0 < pool_eps.
Proof. unfold pool_eps. lra. Qed.

Lemma norm_eps_pos : 0 < norm_eps.
Proof. unfold norm_eps. lra. Qed.

(** ** The result monad and the gathering of tasks *)

Section Gathering.

Context {A : Type}.

Lemma results_in_order_ok (tasks : list (res A)) (l : list A) :
  results_in_order tasks = Ok l <-> tasks = map Ok l.
Proof.
  revert l. induction tasks as [|t rest IH]; intros l; simpl.
  - split; intros H.
    + injection H as <-. reflexivity.
    + destruct l; [reflexivity | discriminate].
  - destruct t as [a|e]; simpl.
    + destruct (results_in_order rest) as [l'|e'] eqn:E; simpl.
      * split; intros H.
        -- injection H as <-. simpl. f_equal. apply IH. reflexivity.
        -- destruct l as [|a0 l0]; [discriminate|]. simpl in H.
           injection H as -> Hrest. f_equal. f_equal.
           apply IH in Hrest. congruence.
      * split; intros H; [discriminate|].
        destruct l as [|a0 l0]; [discriminate|]. simpl in H.
        injection H as _ Hrest. apply IH in Hrest. discriminate.
    + split; intros H; [discriminate|].
      destruct l; discriminate.
Qed.

(** A task that raised makes the positional collection raise. *)
Lemma results_in_order_raise (tasks : list (res A)) (i : nat) (e : exn) :
  nth_error tasks i = Some (Raise e) ->
  exists e', results_in_order tasks = Raise e'.
Proof.
  revert i. induction tasks as [|t rest IH]; intros [|i] H; simpl in *;
    try discriminate.
  - injection H as ->. eexists. reflexivity.
  - destruct t as [a|e0]; simpl; [|eexists; reflexivity].
    destruct (IH _ H) as [e' ->]. eexists. reflexivity.
Qed.

(** An exception reported by [first_exception] was raised by a task of the
    order. *)
Lemma first_exception_some (order : list nat) (tasks : list (res A)) (e : exn) :
  first_exception order tasks = Some e ->
  exists i, In i order /\ nth_error tasks i = Some (Raise e).
Proof.
  induction order as [|i rest IH]; simpl; [discriminate|].
  destruct (nth_error tasks i) as [[a|e0]|] eqn:E; intros H.
  - destruct (IH H) as (j & Hj & Hn). exists j. auto.
  - injection H as ->. exists i. auto.
  - destruct (IH H) as (j & Hj & Hn). exists j. auto.
Qed.

Lemma first_exception_none (order : list nat) (tasks : list (res A)) :
  first_exception order tasks = None ->
  forall i e, In i order -> nth_error tasks i <> Some (Raise e).
Proof.
  induction order as [|j rest IH]; simpl; intros H i e Hin; [contradiction|].
  destruct (nth_error tasks j) as [[a|e0]|] eqn:E; try discriminate;
    (destruct Hin as [<-|Hin]; [congruence | now apply IH]).
Qed.

(** Whatever the completion order, [gather] returns what the positional
    collection returns, and raises when it raises. *)
Lemma gather_returned (order : list nat) (tasks : list (res A)) :
  returned (gather order tasks) = returned (results_in_order tasks).
Proof.
  unfold gather.
  destruct (first_exception order tasks) as [e|] eqn:E; [|reflexivity].
  apply first_exception_some in E. destruct E as (i & _ & Hn).
  destruct (results_in_order_raise _ _ Hn) as [e' ->]. reflexivity.
Qed.

Lemma gather_ok (order : list nat) (tasks : list (res A)) (l : list A) :
  gather order tasks = Ok l <-> results_in_order tasks = Ok l.
Proof.
  pose proof (gather_returned order tasks) as H.
  destruct (gather order tasks), (results_in_order tasks); simpl in H;
    split; intros E; try discriminate; congruence.
Qed.

End Gathering.

(** The completion order is a permutation of the submitted tasks. *)

Lemma nth_remove_at_perm (k : nat) (l : list nat) (d : nat) :
  (k < length l)%nat -> Permutation (nth k l d :: remove_at k l) l.
Proof.
  revert l. induction k as [|k IH]; intros [|a l] Hk; simpl in Hk; try lia.
  - reflexivity.
  - change (remove_at (S k) (a :: l)) with (a :: remove_at k l).
    simpl nth. etransitivity; [apply perm_swap|].
    apply perm_skip, IH. lia.
Qed.

Lemma remove_at_length (k : nat) (l : list nat) :
  (k < length l)%nat -> length (remove_at k l) = pred (length l).
Proof.
  intros Hk. unfold remove_at.
  rewrite length_app, length_firstn, length_skipn. lia.
Qed.

Lemma pick_order_perm (fuel : nat) (oracle pending : list nat) :
  (length pending <= fuel)%nat ->
  Permutation (pick_order fuel oracle pending) pending.
Proof.
  revert oracle pending.
  induction fuel as [|fuel IH]; intros oracle pending Hlen.
  - destruct pending; [reflexivity | simpl in Hlen; lia].
  - destruct pending as [|p0 rest]; [reflexivity|].
    cbn [pick_order].
    set (k := Nat.modulo (hd 0%nat oracle) (length (p0 :: rest))).
    assert (Hk : (k < length (p0 :: rest))%nat).
    { apply Nat.mod_upper_bound. simpl. lia. }
    etransitivity; [|apply (nth_remove_at_perm (p0 :: rest) p0 Hk)].
    apply perm_skip, IH.
    rewrite remove_at_length by exact Hk. simpl in *. lia.
Qed.

Lemma completion_order_perm (oracle : list nat) (n : nat) :
  Permutation (completion_order oracle n) (seq 0 n).
Proof.
  apply pick_order_perm. now rewrite length_seq.
Qed.

(** Conversely every order of the tasks is the completion order of some
    oracle: the model leaves no schedule out. *)
Lemma pick_order_complete (p pending : list nat) :
  Permutation p pending ->
  exists oracle, pick_order (length pending) oracle pending = p.
Proof.
  revert pending. induction p as [|x p IH]; intros pending Hperm.
  - apply Permutation_nil in Hperm. subst. exists []. reflexivity.
  - assert (Hin : In x pending)
      by (apply (Permutation_in x Hperm); now left).
    destruct (In_nth pending x 0%nat Hin) as (k & Hk & Hnth).
    assert (Hrest : Permutation p (remove_at k pending)).
    { apply Permutation_cons_inv with (a := x).
      etransitivity; [exact Hperm|]. rewrite <- Hnth.
      symmetry. apply nth_remove_at_perm. exact Hk. }
    destruct (IH _ Hrest) as [oracle Horacle].
    exists (k :: oracle).
    destruct pending as [|p0 rest]; [simpl in Hk; lia|].
    cbn [length pick_order hd tl].
    change (S (length rest)) with (length (p0 :: rest)).
    rewrite Nat.mod_small by exact Hk.
    rewrite (nth_indep (p0 :: rest) p0 0%nat Hk), Hnth. f_equal.
    rewrite remove_at_length in Horacle by exact Hk. exact Horacle.
Qed.

Lemma every_order_is_scheduled (n : nat) (p : list nat) :
  Permutation p (seq 0 n) -> exists oracle, completion_order oracle n = p.
Proof.
  intros Hperm. unfold completion_order.
  destruct (pick_order_complete Hperm) as [oracle H].
  rewrite length_seq in H. exists oracle. exact H.
Qed.

(** When some task raised, [gather] raises the exception of the task that
    was the first to fail, whatever the completion order. *)
Lemma gather_raises {A : Type} (oracle : list nat) (tasks : list (res A))
    (i : nat) (e : exn) :
  nth_error tasks i = Some (Raise e) ->
  exists j e',
    nth_error tasks j = Some (Raise e') /\
    first_exception (completion_order oracle (length tasks)) tasks = Some e' /\
    gather (completion_order oracle (length tasks)) tasks = Raise e'.
Proof.
  intros Hn. unfold gather.
  destruct (first_exception (completion_order oracle (length tasks)) tasks)
    as [e'|] eqn:E.
  - destruct (first_exception_some _ _ E) as (j & _ & Hj).
    exists j, e'. auto.
  - exfalso.
    eapply first_exception_none with (i := i); [exact E| |exact Hn].
    apply (Permutation_in i (Permutation_sym (completion_order_perm oracle (length tasks)))).
    apply in_seq. split; [lia|]. simpl.
    apply nth_error_Some. congruence.
Qed.

(** The loop of [embed_sync] collects what the positional collection of the
    chunks' outcomes collects. *)
Lemma sync_loop_spec (self : OptimizedEmbeddingService) (texts : list string)
    (idxs : list Z) (acc : list ndarray) :
  sync_loop self texts idxs acc =
  (l <- results_in_order
          (map (_embed_batch self)
               (map (fun i => py_slice texts i (i + batch_size self)) idxs)) ;;
   Ok (acc ++ l)).
Proof.
  revert acc. induction idxs as [|i rest IH]; intros acc; simpl.
  - now rewrite app_nil_r.
  - destruct (_embed_batch self (py_slice texts i (i + batch_size self)))
      as [a|e]; simpl; [|reflexivity].
    rewrite IH.
    destruct (results_in_order _) as [l|e]; simpl; [|reflexivity].
    now rewrite <- app_assoc.
Qed.

(** ** Ranges, slices and chunks *)

Local Open Scope Z_scope.

Lemma range_up_spec (fuel : nat) (i stop step : Z) :
  0 < step -> stop - i <= Z.of_nat fuel ->
  range_up fuel i stop step =
  map (fun k => i + Z.of_nat k * step)
      (seq 0 (Z.to_nat ((stop - i + step - 1) / step))).
Proof.
  intros Hstep. revert i.
  assert (Hnone : forall i, stop <= i ->
            Z.to_nat ((stop - i + step - 1) / step) = 0%nat).
  { intros i Hi.
    assert ((stop - i + step - 1) / step < 1)
      by (apply Z.div_lt_upper_bound; lia).
    lia. }
  induction fuel as [|fuel IH]; intros i Hfuel.
  - rewrite Hnone by lia. reflexivity.
  - cbn [range_up]. destruct (Z.ltb_spec i stop) as [Hlt|Hge].
    + rewrite IH by lia.
      replace (stop - i + step - 1) with ((stop - (i + step) + step - 1) + 1 * step)
        by ring.
      rewrite Z.div_add by lia.
      assert (0 <= (stop - (i + step) + step - 1) / step)
        by (apply Z.div_pos; lia).
      rewrite Z2Nat.inj_add by lia.
      change (Z.to_nat 1) with 1%nat. rewrite Nat.add_1_r.
      cbn [seq map]. f_equal; [lia|].
      rewrite <- seq_shift, map_map.
      apply map_ext. intros k. rewrite Nat2Z.inj_succ. ring.
    + rewrite Hnone by lia. reflexivity.
Qed.

Lemma py_slice_nonneg {A : Type} (l : list A) (i d : Z) :
  0 <= i -> 0 <= d ->
  py_slice l i (i + d) = firstn (Z.to_nat d) (skipn (Z.to_nat i) l).
Proof.
  intros Hi Hd. unfold py_slice, clip_index.
  destruct (Z.ltb_spec i 0); [lia|].
  destruct (Z.ltb_spec (i + d) 0); [lia|].
  set (len := Z.of_nat (length l)).
  destruct (Z.le_gt_cases len i) as [Hout|Hin].
  - rewrite (skipn_all2 l) by lia.
    rewrite (skipn_all2 l) by lia.
    now rewrite !firstn_nil.
  - rewrite (Z.min_l i len) by lia.
    destruct (Z.le_gt_cases (i + d) len) as [Hfit|Hover].
    + rewrite Z.min_l by lia. f_equal. lia.
    + rewrite Z.min_r by lia.
      rewrite !firstn_all2; [reflexivity| |]; rewrite length_skipn; lia.
Qed.

Local Close Scope Z_scope.
Local Open Scope nat_scope.

Lemma firstn_plus {A : Type} (a b : nat) (l : list A) :
  firstn (a + b) l = firstn a l ++ firstn b (skipn a l).
Proof.
  revert l. induction a as [|a IH]; intros [|x l]; simpl; try reflexivity.
  - now rewrite firstn_nil.
  - now rewrite IH.
Qed.

Lemma concat_chunks {A : Type} (b c : nat) (l : list A) :
  concat (map (nth_chunk b l) (seq 0 c)) = firstn (c * b) l.
Proof.
  induction c as [|c IH]; [reflexivity|].
  rewrite seq_S, map_app, concat_app, IH. simpl.
  rewrite app_nil_r. unfold nth_chunk.
  replace (b + c * b) with (c * b + b) by lia.
  now rewrite firstn_plus.
Qed.

Lemma nth_chunk_length {A : Type} (b : nat) (l : list A) (k : nat) :
  length (nth_chunk b l k) = Nat.min b (length l - k * b).
Proof.
  unfold nth_chunk. now rewrite length_firstn, length_skipn.
Qed.

(** In a concatenation whose first [i] blocks all have [b] elements, block
    [i] starts at position [i * b]. *)
Lemma nth_error_concat_blocks {A : Type} (b : nat) (blocks : list (list A))
    (i j : nat) (blk : list A) :
  (forall k r, k < i -> nth_error blocks k = Some r -> length r = b) ->
  nth_error blocks i = Some blk ->
  j < length blk ->
  nth_error (concat blocks) (i * b + j) = nth_error blk j.
Proof.
  revert blocks. induction i as [|i IH]; intros [|r blocks] Hfull Hn Hj;
    simpl in Hn; try discriminate.
  - injection Hn as ->. simpl. now rewrite nth_error_app1.
  - assert (Hr : length r = b) by (apply (Hfull 0 r); [lia | reflexivity]).
    simpl concat. rewrite nth_error_app2 by lia.
    replace (S i * b + j - length r) with (i * b + j) by lia.
    apply IH; [|assumption|assumption].
    intros k r' Hk Hk'. apply (Hfull (S k) r'); [lia | exact Hk'].
Qed.

Lemma nth_error_map_seq {A : Type} (f : nat -> A) (c k : nat) (x : A) :
  nth_error (map f (seq 0 c)) k = Some x -> k < c /\ x = f k.
Proof.
  intros H.
  assert (Hk : k < c).
  { rewrite <- (length_seq c 0), <- (length_map f (seq 0 c)).
    apply nth_error_Some. congruence. }
  split; [exact Hk|].
  rewrite nth_error_map, nth_error_seq in H.
  destruct (Nat.ltb_spec k c); [|lia].
  simpl in H. congruence.
Qed.

Lemma Forall2_nth_error_r {A B : Type} (P : A -> B -> Prop) (l : list A)
    (l' : list B) (k : nat) (y : B) :
  Forall2 P l l' -> nth_error l' k = Some y ->
  exists x, nth_error l k = Some x /\ P x y.
Proof.
  intros HF. revert k. induction HF as [|x0 y0 l l' HP _ IH]; intros [|k] H;
    simpl in H; try discriminate.
  - injection H as ->. exists x0. auto.
  - apply IH. exact H.
Qed.

Lemma Forall2_nth_error_l {A B : Type} (P : A -> B -> Prop) (l : list A)
    (l' : list B) (k : nat) (x : A) :
  Forall2 P l l' -> nth_error l k = Some x ->
  exists y, nth_error l' k = Some y /\ P x y.
Proof.
  intros HF. revert k. induction HF as [|x0 y0 l l' HP _ IH]; intros [|k] H;
    simpl in H; try discriminate.
  - injection H as ->. exists y0. auto.
  - apply IH. exact H.
Qed.

(** ** The two entry points as one function of the chunks *)

Lemma batches_of_spec (self : OptimizedEmbeddingService) (texts : list string) :
  (0 < batch_size self)%Z ->
  batches_of self texts =
  Ok (map (nth_chunk (Z.to_nat (batch_size self)) texts)
          (seq 0 (chunk_count (length texts) (batch_size self)))).
Proof.
  intros HB. unfold batches_of, py_range, chunk_count.
  destruct (Z.eqb_spec (batch_size self) 0); [lia|].
  destruct (Z.ltb_spec 0 (batch_size self)); [|lia].
  cbn [bind]. f_equal.
  rewrite range_up_spec by lia.
  rewrite Z.sub_0_r, map_map.
  apply map_ext. intros k. unfold nth_chunk.
  rewrite py_slice_nonneg by lia.
  f_equal. f_equal. rewrite Z.add_0_l, Z2Nat.inj_mul, Nat2Z.id by lia.
  reflexivity.
Qed.

(** The chunk count is the ceiling of [n / B]. *)
Lemma chunk_count_ceil (n : nat) (B : Z) :
  (0 < B)%Z ->
  ((Z.of_nat (chunk_count n B) - 1) * B < Z.of_nat n <= Z.of_nat (chunk_count n B) * B)%Z.
Proof.
  intros HB. unfold chunk_count.
  assert (0 <= (Z.of_nat n + B - 1) / B)%Z by (apply Z.div_pos; lia).
  rewrite Z2Nat.id by lia.
  pose proof (Z.div_mod (Z.of_nat n + B - 1) B ltac:(lia)) as Hdm.
  pose proof (Z.mod_pos_bound (Z.of_nat n + B - 1) B HB) as Hr.
  nia.
Qed.

Lemma embed_sync_unfold (self : OptimizedEmbeddingService) (x : texts_arg) :
  embed_sync self x =
  (bs <- batches_of self (texts_of x) ;;
   arrays <- results_in_order (map (_embed_batch self) bs) ;;
   a <- vstack arrays ;;
   shaped_as x (nd_rows a)).
Proof.
  unfold embed_sync, batches_of, shaped_as, tolist.
  destruct x as [s|l]; cbn [texts_of];
    (destruct (py_range _ _ _) as [idxs|e]; cbn [bind]; [|reflexivity];
     rewrite sync_loop_spec;
     destruct (results_in_order _) as [arrays|e]; cbn [bind app]; reflexivity).
Qed.

Lemma embed_async_unfold (self : OptimizedEmbeddingService) (oracle : list nat)
    (x : texts_arg) :
  embed_async self oracle x =
  (bs <- batches_of self (texts_of x) ;;
   arrays <- gather (completion_order oracle (length (map (_embed_batch self) bs)))
                    (map (_embed_batch self) bs) ;;
   a <- vstack arrays ;;
   shaped_as x (nd_rows a)).
Proof.
  unfold embed_async, shaped_as, tolist.
  destruct x as [s|l]; cbn [texts_of]; reflexivity.
Qed.

Lemma returned_async_sync
    (self : OptimizedEmbeddingService) (oracle : list nat) (x : texts_arg) :
  returned (embed_async self oracle x) = returned (embed_sync self x).
Proof.
  rewrite embed_async_unfold, embed_sync_unfold.
  destruct (batches_of self (texts_of x)) as [bs|e]; cbn [bind]; [|reflexivity].
  pose proof (gather_returned
                (completion_order oracle (length (map (_embed_batch self) bs)))
                (map (_embed_batch self) bs)) as H.
  destruct (gather _ _) as [l1|e1], (results_in_order _) as [l2|e2];
    cbn [returned] in H; try discriminate; cbn [bind].
  - injection H as ->. reflexivity.
  - reflexivity.
Qed.

Lemma embed_async_ok_iff (self : OptimizedEmbeddingService) (oracle : list nat)
    (x : texts_arg) (r : pyval) :
  embed_async self oracle x = Ok r <-> embed_sync self x = Ok r.
Proof.
  pose proof (returned_async_sync self oracle x) as H.
  destruct (embed_async self oracle x), (embed_sync self x); simpl in H;
    split; intros E; try discriminate; congruence.
Qed.

(** ** Shapes *)

Lemma mean_pooling_shape (tok : Tensor3) (mask : LongTensor2) (t : Tensor2) :
  _mean_pooling tok mask = Ok t ->
  t2_d0 t = t3_d0 tok /\ t2_d1 t = t3_d2 tok.
Proof.
  unfold _mean_pooling.
  destruct (expand_mask mask _ _ _) as [m|e]; cbn [bind]; [|discriminate].
  intros H. injection H as <-. split; reflexivity.
Qed.

Lemma pooled_batch_hidden (self : OptimizedEmbeddingService) (texts : list string)
    (t : Tensor2) :
  pooled_batch self texts = Ok t ->
  exists enc tok,
    tokenizer self texts (max_length self) = Ok enc /\
    hidden_states self texts = Ok tok /\
    _mean_pooling tok (attention_mask enc) = Ok t.
Proof.
  unfold pooled_batch, hidden_states.
  destruct (tokenizer self texts (max_length self)) as [enc|e]; cbn [bind];
    [|discriminate].
  destruct (model self enc) as [out|e]; cbn [bind]; [|discriminate].
  destruct (last_hidden_state_of out) as [tok|e]; cbn [bind]; [|discriminate].
  intros H. exists enc, tok. auto.
Qed.

Lemma embed_batch_unfold (self : OptimizedEmbeddingService) (texts : list string) :
  _embed_batch self texts =
  (embeddings <- pooled_batch self texts ;; Ok (to_numpy (normalize embeddings))).
Proof.
  unfold _embed_batch, pooled_batch.
  destruct (tokenizer self texts (max_length self)) as [enc|e]; cbn [bind];
    [|reflexivity].
  destruct (model self enc) as [out|e]; cbn [bind]; [|reflexivity].
  destruct (last_hidden_state_of out) as [tok|e]; reflexivity.
Qed.

Lemma embed_batch_inv (self : OptimizedEmbeddingService) (texts : list string)
    (a : ndarray) :
  _embed_batch self texts = Ok a ->
  exists t, pooled_batch self texts = Ok t /\ a = to_numpy (normalize t).
Proof.
  rewrite embed_batch_unfold.
  destruct (pooled_batch self texts) as [t|e]; cbn [bind]; [|discriminate].
  intros H. injection H as <-. exists t. auto.
Qed.

Lemma to_numpy_rows_length (t : Tensor2) :
  length (nd_rows (to_numpy t)) = t2_d0 t /\
  Forall (fun r => length r = t2_d1 t) (nd_rows (to_numpy t)).
Proof.
  unfold to_numpy. cbn [nd_rows]. split.
  - now rewrite length_map, length_seq.
  - apply Forall_forall. intros r Hr.
    apply in_map_iff in Hr. destruct Hr as (b & <- & _).
    unfold row_of. now rewrite length_map, length_seq.
Qed.

Lemma embed_batch_shape (self : OptimizedEmbeddingService) (D : nat)
    (texts : list string) (a : ndarray) :
  well_shaped self D ->
  _embed_batch self texts = Ok a ->
  nd_cols a = D /\ length (nd_rows a) = length texts /\
  Forall (fun r => length r = D) (nd_rows a).
Proof.
  intros Hws Ha.
  destruct (embed_batch_inv _ _ Ha) as (t & Hp & ->).
  destruct (pooled_batch_hidden _ _ Hp) as (enc & tok & _ & Hh & Hm).
  destruct (Hws _ _ Hh) as [H0 H2].
  destruct (mean_pooling_shape _ _ Hm) as [E0 E1].
  destruct (to_numpy_rows_length (normalize t)) as [L F].
  cbn [normalize t2_d0 t2_d1] in L, F.
  repeat split.
  - cbn. congruence.
  - rewrite L. congruence.
  - rewrite E1, H2 in F. exact F.
Qed.

Lemma vstack_ok_inv (arrays : list ndarray) (a : ndarray) :
  vstack arrays = Ok a ->
  arrays <> [] /\ nd_rows a = concat (map nd_rows arrays).
Proof.
  destruct arrays as [|a0 rest]; cbn [vstack]; [discriminate|].
  destruct (forallb _ rest); [|discriminate].
  intros H. injection H as <-. split; [discriminate | reflexivity].
Qed.

Lemma vstack_same_cols (D : nat) (arrays : list ndarray) :
  arrays <> [] ->
  Forall (fun a => nd_cols a = D) arrays ->
  vstack arrays = Ok (mkNd D (concat (map nd_rows arrays))).
Proof.
  destruct arrays as [|a0 rest]; [congruence|]. intros _ HF.
  inversion HF as [|? ? H0 Hrest]; subst. cbn [vstack].
  replace (forallb (fun b => nd_cols b =? nd_cols a0) rest) with true;
    [reflexivity|].
  symmetry. apply forallb_forall. intros b Hb.
  apply Nat.eqb_eq. rewrite Forall_forall in Hrest. now apply Hrest.
Qed.

Lemma map_ok_Forall2 {A B : Type} (f : A -> res B) (l : list A) (l' : list B) :
  map f l = map Ok l' <-> Forall2 (fun x y => f x = Ok y) l l'.
Proof.
  revert l'. induction l as [|x l IH]; intros [|y l']; simpl; split; intros H;
    try discriminate; try constructor; try (inversion H; fail).
  - injection H as Hx Hl. exact Hx.
  - injection H as Hx Hl. now apply IH.
  - inversion H; subst. f_equal; [assumption | now apply IH].
Qed.

Lemma concat_rows_length (bs : list (list string)) (arrays : list ndarray) :
  Forall2 (fun c a => length (nd_rows a) = length c) bs arrays ->
  length (concat (map nd_rows arrays)) = length (concat bs).
Proof.
  induction 1 as [|c a bs arrays Hca _ IH]; [reflexivity|].
  simpl. rewrite !length_app. congruence.
Qed.

Lemma batches_of_negative (self : OptimizedEmbeddingService) (texts : list string) :
  (batch_size self < 0)%Z -> batches_of self texts = Ok [].
Proof.
  intros HB. unfold batches_of, py_range.
  destruct (Z.eqb_spec (batch_size self) 0); [lia|].
  destruct (Z.ltb_spec 0 (batch_size self)); [lia|].
  replace (Z.to_nat (0 - Z.of_nat (length texts))) with 0 by lia.
  reflexivity.
Qed.

Lemma batches_of_zero (self : OptimizedEmbeddingService) (texts : list string) :
  batch_size self = 0%Z ->
  batches_of self texts = Raise (ValueError "range() arg 3 must not be zero").
Proof.
  intros HB. unfold batches_of, py_range. rewrite HB. reflexivity.
Qed.

Lemma chunk_count_zero (B : Z) : (0 < B)%Z -> chunk_count 0 B = 0.
Proof.
  intros HB. pose proof (chunk_count_ceil 0 HB). nia.
Qed.

Lemma chunks_concat (b : nat) (B : Z) (texts : list string) :
  (0 < B)%Z -> b = Z.to_nat B ->
  concat (map (nth_chunk b texts) (seq 0 (chunk_count (length texts) B))) = texts.
Proof.
  intros HB ->. rewrite concat_chunks.
  apply firstn_all2.
  pose proof (chunk_count_ceil (length texts) HB). nia.
Qed.

(** ** What a returning call is made of *)

Lemma all_succeed_Forall2 {A B : Type} (f : A -> res B) (l : list A) :
  (forall x, In x l -> exists y, f x = Ok y) ->
  exists l', Forall2 (fun x y => f x = Ok y) l l'.
Proof.
  induction l as [|x l IH]; intros H.
  - exists []. constructor.
  - destruct (H x (or_introl eq_refl)) as [y Hy].
    destruct IH as [l' Hl']; [intros z Hz; apply H; now right|].
    exists (y :: l'). now constructor.
Qed.

Lemma chunk_arrays_shape (self : OptimizedEmbeddingService) (D : nat)
    (bs : list (list string)) (arrays : list ndarray) :
  well_shaped self D ->
  Forall2 (fun c a => _embed_batch self c = Ok a) bs arrays ->
  Forall (fun a => nd_cols a = D) arrays /\
  Forall2 (fun c a => length (nd_rows a) = length c) bs arrays /\
  Forall (fun v => length v = D) (concat (map nd_rows arrays)).
Proof.
  intros Hws. induction 1 as [|c a bs arrays Hca _ IH].
  - repeat split; constructor.
  - destruct IH as (I1 & I2 & I3).
    destruct (embed_batch_shape _ Hws Hca) as (S1 & S2 & S3).
    repeat split; try (constructor; assumption).
    simpl. apply Forall_app. auto.
Qed.

(** When every chunk's inference succeeds, [embed_sync] returns the stacked
    rows of the chunks, in chunk order. *)
Lemma embed_sync_returns (self : OptimizedEmbeddingService) (D : nat)
    (x : texts_arg) (arrays : list ndarray) :
  (0 < batch_size self)%Z ->
  texts_of x <> [] ->
  well_shaped self D ->
  Forall2 (fun c a => _embed_batch self c = Ok a)
          (map (nth_chunk (Z.to_nat (batch_size self)) (texts_of x))
               (seq 0 (chunk_count (length (texts_of x)) (batch_size self))))
          arrays ->
  embed_sync self x = shaped_as x (concat (map nd_rows arrays)).
Proof.
  intros HB Hne Hws HF.
  rewrite embed_sync_unfold, batches_of_spec by exact HB. cbn [bind].
  pose proof HF as HF'. apply map_ok_Forall2 in HF'.
  apply results_in_order_ok in HF'. rewrite HF'. cbn [bind].
  destruct (chunk_arrays_shape Hws HF) as (Hc & _ & _).
  rewrite (vstack_same_cols (D := D)); [reflexivity| |exact Hc].
  intros ->. inversion HF as [Hnil|]; subst.
  symmetry in Hnil. apply map_eq_nil in Hnil.
  assert (Hz : chunk_count (length (texts_of x)) (batch_size self) = 0)
    by (destruct (chunk_count _ _); [reflexivity | discriminate]).
  pose proof (chunk_count_ceil (length (texts_of x)) HB) as Hceil.
  rewrite Hz in Hceil.
  destruct (texts_of x); [congruence | simpl in Hceil; lia].
Qed.

(** A call that returns went through a positive batch size and a non-empty
    list of texts, every chunk's inference succeeded, and the value is made
    of the stacked rows. *)
Lemma embed_sync_ok_inv (self : OptimizedEmbeddingService) (x : texts_arg)
    (r : pyval) :
  embed_sync self x = Ok r ->
  (0 < batch_size self)%Z /\ texts_of x <> [] /\
  exists arrays,
    Forall2 (fun c a => _embed_batch self c = Ok a)
            (map (nth_chunk (Z.to_nat (batch_size self)) (texts_of x))
                 (seq 0 (chunk_count (length (texts_of x)) (batch_size self))))
            arrays /\
    shaped_as x (concat (map nd_rows arrays)) = Ok r.
Proof.
  intros H. rewrite embed_sync_unfold in H.
  assert (HB : (0 < batch_size self)%Z).
  { destruct (Z.lt_trichotomy (batch_size self) 0) as [Hneg|[Hz|Hpos]];
      [| |exact Hpos].
    - rewrite batches_of_negative in H by exact Hneg. discriminate.
    - rewrite batches_of_zero in H by exact Hz. discriminate. }
  rewrite batches_of_spec in H by exact HB. cbn [bind] in H.
  destruct (results_in_order _) as [arrays|e] eqn:E; cbn [bind] in H;
    [|discriminate].
  destruct (vstack arrays) as [a|e] eqn:V; cbn [bind] in H; [|discriminate].
  destruct (vstack_ok_inv _ V) as [Hne Hrows].
  apply results_in_order_ok in E. apply map_ok_Forall2 in E.
  split; [exact HB|]. split.
  - intros Hnil. rewrite Hnil in E. cbn [length] in E.
    rewrite chunk_count_zero in E by exact HB.
    inversion E; subst. congruence.
  - exists arrays. split; [exact E|]. now rewrite <- Hrows.
Qed.

(** Under the shape assumption, the value a call returns is made of one
    vector of length [D] per text. *)
Lemma embed_sync_ok_rows (self : OptimizedEmbeddingService) (D : nat)
    (x : texts_arg) (r : pyval) :
  well_shaped self D ->
  embed_sync self x = Ok r ->
  exists vs,
    shaped_as x vs = Ok r /\
    length vs = length (texts_of x) /\
    Forall (fun v => length v = D) vs.
Proof.
  intros Hws H.
  destruct (embed_sync_ok_inv _ _ H) as (HB & Hne & arrays & HF & Hr).
  destruct (chunk_arrays_shape Hws HF) as (_ & Hlen & HD).
  exists (concat (map nd_rows arrays)). repeat split; try assumption.
  rewrite (concat_rows_length Hlen).
  now rewrite (chunks_concat (texts_of x) HB eq_refl).
Qed.

(** ** Sums, norms and normalisation *)

Local Open Scope R_scope.

Lemma sum_upto_ext (f g : nat -> R) (n : nat) :
  (forall k, (k < n)%nat -> f k = g k) -> sum_upto f n = sum_upto g n.
Proof.
  induction n as [|n IH]; intros H; simpl; [reflexivity|].
  rewrite IH, H by (intros; try apply H; lia). reflexivity.
Qed.


Lemma sum_upto_zero (f : nat -> R) (n : nat) :
  (forall k, (k < n)%nat -> f k = 0) -> sum_upto f n = 0.
Proof.
  induction n as [|n IH]; intros H; simpl; [reflexivity|].
  rewrite IH, H by (intros; try apply H; lia). ring.
Qed.





Lemma norm_divisor_pos (t : Tensor2) (b : nat) :
  0 < Rmax (row_norm t b) norm_eps.
Proof.
  pose proof norm_eps_pos. pose proof (Rmax_r (row_norm t b) norm_eps). lra.
Qed.






(** ** The pooling formula *)

Lemma expand_mask_same_shape (mask : LongTensor2) (d2 : nat) :
  expand_mask mask (l2_d0 mask) (l2_d1 mask) d2 =
  Ok (mkT3 (l2_d0 mask) (l2_d1 mask) d2 (fun b s _ => IZR (l2_at mask b s))).
Proof.
  unfold expand_mask. rewrite !Nat.eqb_refl. reflexivity.
Qed.

Lemma mean_pooling_formula (tok : Tensor3) (mask : LongTensor2) :
  l2_d0 mask = t3_d0 tok -> l2_d1 mask = t3_d1 tok ->
  _mean_pooling tok mask =
  Ok (mkT2 (t3_d0 tok) (t3_d2 tok)
           (fun b h =>
              sum_upto (fun s => t3_at tok b s h * IZR (l2_at mask b s)) (t3_d1 tok) /
              Rmax (sum_upto (fun s => IZR (l2_at mask b s)) (t3_d1 tok)) pool_eps)).
Proof.
  intros H0 H1. unfold _mean_pooling.
  pose proof (expand_mask_same_shape mask (t3_d2 tok)) as E.
  rewrite H0, H1 in E. rewrite E. reflexivity.
Qed.


(** On a row whose mask is all padding the pooled vector is zero. *)
Lemma pooled_padding_row (tok : Tensor3) (mask : LongTensor2) (pooled : Tensor2)
    (b : nat) :
  l2_d0 mask = t3_d0 tok -> l2_d1 mask = t3_d1 tok ->
  _mean_pooling tok mask = Ok pooled ->
  (forall s, (s < t3_d1 tok)%nat -> l2_at mask b s = 0%Z) ->
  forall h, t2_at pooled b h = 0.
Proof.
  intros H0 H1 Hp Hpad h.
  rewrite (mean_pooling_formula _ _ H0 H1) in Hp. injection Hp as <-.
  cbn [t2_at].
  rewrite (sum_upto_zero (fun s => t3_at tok b s h * IZR (l2_at mask b s)));
    [unfold Rdiv; ring|].
  intros s Hs. rewrite (Hpad s Hs). ring.
Qed.


Lemma map_const_repeat {A B : Type} (c : B) (l : list A) :
  map (fun _ => c) l = repeat c (length l).
Proof.
  induction l as [|x l IH]; simpl; [reflexivity|]. now rewrite IH.
Qed.

Lemma normalize_zero_row (t : Tensor2) (b : nat) :
  (forall h, t2_at t b h = 0) ->
  row_of (normalize t) b = repeat 0 (t2_d1 t).
Proof.
  intros H. unfold row_of. cbn [normalize t2_d1 t2_at].
  rewrite (map_ext _ (fun _ => 0)).
  - now rewrite map_const_repeat, length_seq.
  - intros h. rewrite H. unfold Rdiv. ring.
Qed.

Lemma l2_norm_zeros (n : nat) : l2_norm (repeat 0 n) = 0.
Proof.
  unfold l2_norm.
  replace (fold_right (fun x acc => x * x + acc) 0 (repeat 0 n)) with 0;
    [apply sqrt_0|].
  induction n as [|n IH]; simpl; [reflexivity|]. rewrite <- IH. ring.
Qed.

(** ** Lemmas shared by the claims *)

Local Open Scope nat_scope.

Lemma chunk_count_one (B : Z) : (0 < B)%Z -> chunk_count 1 B = 1.
Proof.
  intros HB. pose proof (chunk_count_ceil 1 HB). nia.
Qed.

Lemma single_text_is_first_of_singleton_sync
    (self : OptimizedEmbeddingService) (t : string) :
  embed_sync self (Str t) = (r <- embed_sync self (Lst [t]) ;; getitem0 r).
Proof.
  rewrite !embed_sync_unfold. cbn [texts_of shaped_as].
  destruct (batches_of self [t]) as [bs|e]; cbn [bind]; [|reflexivity].
  destruct (results_in_order _) as [arrays|e]; cbn [bind]; [|reflexivity].
  destruct (vstack arrays) as [a|e]; reflexivity.
Qed.

Lemma single_text_is_first_of_singleton_async
    (self : OptimizedEmbeddingService) (oracle : list nat) (t : string) :
  embed_async self oracle (Str t) =
  (r <- embed_async self oracle (Lst [t]) ;; getitem0 r).
Proof.
  rewrite !embed_async_unfold. cbn [texts_of shaped_as].
  destruct (batches_of self [t]) as [bs|e]; cbn [bind]; [|reflexivity].
  destruct (gather _ _) as [arrays|e]; cbn [bind]; [|reflexivity].
  destruct (vstack arrays) as [a|e]; reflexivity.
Qed.

Lemma py_len_vector (v : list R) : py_len (py_vector v) = Ok (Z.of_nat (length v)).
Proof. unfold py_len, py_vector. now rewrite length_map. Qed.

Lemma py_len_matrix (vs : list (list R)) :
  py_len (py_matrix vs) = Ok (Z.of_nat (length vs)).
Proof. unfold py_len, py_matrix. now rewrite length_map. Qed.

(** The rows of a returned value all have the length that
    [get_embedding_dimension] reports. *)
Lemma dimension_of_probe (self : OptimizedEmbeddingService) (D : nat) (d : Z) :
  well_shaped self D ->
  get_embedding_dimension self = Ok d -> d = Z.of_nat D.
Proof.
  intros Hws H. unfold get_embedding_dimension in H.
  destruct (embed_sync self (Str "test")) as [r|e] eqn:E; cbn [bind] in H;
    [|discriminate].
  destruct (embed_sync_ok_rows _ Hws E) as (vs & Hr & Hlen & HD).
  cbn [texts_of length] in Hlen.
  destruct vs as [|v [|v' rest]]; try discriminate.
  cbn in Hr. injection Hr as <-.
  inversion HD as [|? ? Hv _]; subst.
  rewrite py_len_vector in H. congruence.
Qed.

Lemma embed_sync_empty_list (self : OptimizedEmbeddingService) :
  embed_sync self (Lst []) =
  Raise (ValueError (if (batch_size self =? 0)%Z
                     then "range() arg 3 must not be zero"%string
                     else "need at least one array to concatenate"%string)).
Proof.
  unfold embed_sync, py_range. cbn [length Z.of_nat].
  destruct (Z.eqb_spec (batch_size self) 0); [reflexivity|].
  destruct (0 <? batch_size self)%Z; reflexivity.
Qed.

Lemma embed_async_empty_list (self : OptimizedEmbeddingService)
    (oracle : list nat) :
  embed_async self oracle (Lst []) =
  Raise (ValueError (if (batch_size self =? 0)%Z
                     then "range() arg 3 must not be zero"%string
                     else "need at least one array to concatenate"%string)).
Proof.
  unfold embed_async, batches_of, py_range. cbn [length Z.of_nat].
  destruct (Z.eqb_spec (batch_size self) 0); [reflexivity|].
  destruct (0 <? batch_size self)%Z; reflexivity.
Qed.

(** The route /embed has no such check: the empty list reaches the core and
    the failure comes back as status 500. *)
Lemma embed_route_empty_list (self : OptimizedEmbeddingService)
    (oracle : list nat) :
  Api.embed (Some self) oracle (Lst []) =
  Api.HTTPException 500
    ("Error generating embeddings: " ++
     (if (batch_size self =? 0)%Z
      then "range() arg 3 must not be zero"
      else "need at least one array to concatenate")).
Proof.
  unfold Api.embed. rewrite embed_async_empty_list. reflexivity.
Qed.

Local Open Scope R_scope.

(** A request of one text is one chunk. *)
Lemma embed_sync_one_text (self : OptimizedEmbeddingService) (t : string)
    (a : ndarray) :
  (0 < batch_size self)%Z ->
  _embed_batch self [t] = Ok a ->
  embed_sync self (Lst [t]) = Ok (py_matrix (nd_rows a)).
Proof.
  intros HB Ha.
  rewrite embed_sync_unfold, batches_of_spec by exact HB.
  cbn [texts_of length]. rewrite chunk_count_one by exact HB.
  cbn [seq map bind]. unfold nth_chunk. cbn [Nat.mul skipn].
  replace (firstn (Z.to_nat (batch_size self)) [t]) with [t]
    by (symmetry; apply firstn_all2; simpl; lia).
  rewrite Ha. cbn [results_in_order bind vstack forallb nd_rows map concat shaped_as].
  now rewrite app_nil_r.
Qed.

(** The batch result for one text whose mask is all padding. *)
Lemma padding_only_batch (self : OptimizedEmbeddingService) (t : string)
    (enc : Encoded) (tok : Tensor3) :
  tokenizer self [t] (max_length self) = Ok enc ->
  hidden_states self [t] = Ok tok ->
  t3_d0 tok = 1%nat ->
  l2_d0 (attention_mask enc) = 1%nat ->
  l2_d1 (attention_mask enc) = t3_d1 tok ->
  (forall s, (s < t3_d1 tok)%nat -> l2_at (attention_mask enc) 0 s = 0%Z) ->
  exists a, _embed_batch self [t] = Ok a /\ nd_rows a = [repeat 0 (t3_d2 tok)].
Proof.
  intros Htok Hhid Hd0 Hm0 Hm1 Hpad.
  assert (H0 : l2_d0 (attention_mask enc) = t3_d0 tok) by congruence.
  pose proof (mean_pooling_formula _ _ H0 Hm1) as Hp.
  set (pooled := mkT2 (t3_d0 tok) (t3_d2 tok) _) in Hp.
  assert (Hpb : pooled_batch self [t] = Ok pooled).
  { unfold pooled_batch. unfold hidden_states in Hhid. rewrite Htok in *.
    cbn [bind] in *.
    destruct (model self enc) as [out|e]; cbn [bind] in *; [|discriminate].
    rewrite Hhid. cbn [bind]. exact Hp. }
  exists (to_numpy (normalize pooled)).
  split; [rewrite embed_batch_unfold; rewrite Hpb; reflexivity|].
  cbn [to_numpy nd_rows normalize t2_d0].
  change (t2_d0 pooled) with (t3_d0 tok). rewrite Hd0. cbn [seq map].
  f_equal.
  apply (normalize_zero_row pooled 0).
  eapply pooled_padding_row; [exact H0 | exact Hm1 | exact Hp | exact Hpad].
Qed.


Lemma sum_upto_padding (mask : LongTensor2) (b n : nat) :
  (forall s, (s < n)%nat -> l2_at mask b s = 0%Z) ->
  Rmax (sum_upto (fun s => IZR (l2_at mask b s)) n) pool_eps = pool_eps.
Proof.
  intros Hpad. rewrite sum_upto_zero.
  - apply Rmax_right. left. exact pool_eps_pos.
  - intros s Hs. now rewrite Hpad.
Qed.

Lemma zero_norm_not_unit (n : nat) : l2_norm (repeat 0 n) <> 1.
Proof. rewrite l2_norm_zeros. lra. Qed.

(** ** The small services, evaluated *)

Lemma cls_well_shaped (B : Z) : well_shaped (Toy.cls_service B) 2.
Proof.
  intros texts t H. cbv in H. injection H as <-. split; reflexivity.
Qed.

Lemma unit_mask_divisor : Rmax (0 + 1) pool_eps = 1.
Proof.
  rewrite Rmax_left; [ring|]. unfold pool_eps. lra.
Qed.

Lemma sqrt_25 : sqrt (0 + 3 * 3 + 4 * 4) = 5.
Proof.
  replace (0 + 3 * 3 + 4 * 4) with (5 * 5) by ring.
  apply sqrt_square. lra.
Qed.

Lemma norm_divisor_5 : Rmax 5 norm_eps = 5.
Proof. apply Rmax_left. unfold norm_eps. lra. Qed.

Lemma cls_pooled (B : Z) (texts : list string) :
  pooled_batch (Toy.cls_service B) texts =
  Ok (mkT2 (length texts) 2
        (fun _ h => (0 + (if (h =? 0)%nat then 3 else 4) * 1) / Rmax (0 + 1) pool_eps)).
Proof.
  unfold pooled_batch, Toy.cls_service, Toy.cls_tokenizer, Toy.const_model.
  cbn [tokenizer model max_length bind last_hidden_state_of attention_mask
       input_ids l2_d0 l2_d1].
  rewrite mean_pooling_formula by reflexivity.
  reflexivity.
Qed.

Lemma cls_row_norm (n b : nat) :
  row_norm
    (mkT2 n 2 (fun _ h => (0 + (if (h =? 0)%nat then 3 else 4) * 1) / Rmax (0 + 1) pool_eps))
    b = 5.
Proof.
  unfold row_norm. cbn [t2_at t2_d1 sum_upto Nat.eqb].
  rewrite unit_mask_divisor.
  replace (0 + (0 + 3 * 1) / 1 * ((0 + 3 * 1) / 1) + (0 + 4 * 1) / 1 * ((0 + 4 * 1) / 1))
    with (0 + 3 * 3 + 4 * 4) by field.
  apply sqrt_25.
Qed.

Lemma cls_embed_batch_ok (B : Z) (texts : list string) :
  exists a, _embed_batch (Toy.cls_service B) texts = Ok a.
Proof.
  eexists. rewrite embed_batch_unfold. rewrite cls_pooled. reflexivity.
Qed.

(** The vector of every text on the [CLS] service is (3/5, 4/5). *)
Lemma cls_embed_a :
  embed_sync (Toy.cls_service 32) (Lst ["a"%string]) = Ok (py_matrix [[3 / 5; 4 / 5]]).
Proof.
  destruct (cls_embed_batch_ok 32 ["a"%string]) as [a Ha].
  rewrite (@embed_sync_one_text (Toy.cls_service 32) _ a eq_refl Ha).
  rewrite embed_batch_unfold in Ha. rewrite cls_pooled in Ha. injection Ha as <-.
  cbn [to_numpy nd_rows normalize t2_d0 t2_d1 length seq map row_of t2_at Nat.eqb].
  rewrite cls_row_norm, norm_divisor_5, unit_mask_divisor.
  do 4 f_equal; [|f_equal]; field.
Qed.

Ltac toy_eval :=
  cbv -[Rmax Rdiv Rmult Rplus Ropp IZR sqrt Rinv pool_eps norm_eps].

Lemma padded_embed_empty :
  embed_sync Toy.padded_service (Lst [EmptyString]) = Ok (py_matrix [[0; 0]]).
Proof.
  toy_eval.
  replace ((0 + 3 * 0) / Rmax (0 + 0) pool_eps) with 0 by (unfold Rdiv; ring).
  replace ((0 + 4 * 0) / Rmax (0 + 0) pool_eps) with 0 by (unfold Rdiv; ring).
  replace (0 / Rmax (sqrt (0 + 0 * 0 + 0 * 0)) norm_eps) with 0
    by (unfold Rdiv; ring).
  reflexivity.
Qed.

Lemma l2_norm_zero_pair : l2_norm [0; 0] <> 1.
Proof. exact (zero_norm_not_unit 2). Qed.

(** * The claims *)

Section Claim_C1.

Local Open Scope R_scope.




End Claim_C1.

Section Claim_C2.

Local Open Scope nat_scope.

(** C2. For a list of n >= 1 texts and a positive batch size B, when the
    inference of every chunk succeeds on an encoder of a fixed hidden size:
    the list is cut into k chunks with (k-1)*B < n <= k*B, that is
    k = ceil(n/B), each of at most B texts, whose concatenation is the
    input; [embed_sync] and [embed_async] (whatever the completion order)
    return the same n vectors, and the rows of chunk i occupy the positions
    i*B + j, j < len(chunk i), of the result. *)
Theorem chunked_results_in_input_order
    (self : OptimizedEmbeddingService) (D : nat) (oracle : list nat)
    (texts : list string) :
  (0 < batch_size self)%Z ->
  texts <> [] ->
  well_shaped self D ->
  (forall k, k < chunk_count (length texts) (batch_size self) ->
     exists a,
       _embed_batch self (nth_chunk (Z.to_nat (batch_size self)) texts k) = Ok a) ->
  exists bs vs,
    batches_of self texts = Ok bs /\
    ((Z.of_nat (length bs) - 1) * batch_size self < Z.of_nat (length texts)
       <= Z.of_nat (length bs) * batch_size self)%Z /\
    Forall (fun c => (Z.of_nat (length c) <= batch_size self)%Z) bs /\
    concat bs = texts /\
    embed_sync self (Lst texts) = Ok (py_matrix vs) /\
    embed_async self oracle (Lst texts) = Ok (py_matrix vs) /\
    length vs = length texts /\
    forall i j chunk a,
      nth_error bs i = Some chunk ->
      _embed_batch self chunk = Ok a ->
      j < length chunk ->
      nth_error vs (i * Z.to_nat (batch_size self) + j) = nth_error (nd_rows a) j.
Proof.
  intros HB Hne Hws Hall.
  set (b := Z.to_nat (batch_size self)) in *.
  set (c := chunk_count (length texts) (batch_size self)) in *.
  set (bs := map (nth_chunk b texts) (seq 0 c)).
  destruct (all_succeed_Forall2 (_embed_batch self) bs) as [arrays HF].
  { intros chunk Hin. apply in_map_iff in Hin.
    destruct Hin as (k & <- & Hk). apply in_seq in Hk. apply Hall. lia. }
  destruct (chunk_arrays_shape Hws HF) as (_ & Hlen & _).
  pose proof (chunk_count_ceil (length texts) HB) as Hceil. fold c in Hceil.
  assert (Hsync : embed_sync self (Lst texts)
                  = Ok (py_matrix (concat (map nd_rows arrays)))).
  { apply (embed_sync_returns (Lst texts) HB Hne Hws HF). }
  exists bs, (concat (map nd_rows arrays)).
  split; [apply batches_of_spec; exact HB|].
  split; [unfold bs; rewrite length_map, length_seq; exact Hceil|].
  split.
  { apply Forall_forall. intros chunk Hin. apply in_map_iff in Hin.
    destruct Hin as (k & <- & _). rewrite nth_chunk_length. lia. }
  split; [apply (chunks_concat texts HB eq_refl)|].
  split; [exact Hsync|].
  split; [apply embed_async_ok_iff; exact Hsync|].
  split.
  { rewrite (concat_rows_length Hlen). f_equal.
    apply (chunks_concat texts HB eq_refl). }
  intros i j chunk a Hi Ha Hj.
  destruct (Forall2_nth_error_l _ HF Hi) as (a' & Ha' & Hca').
  assert (a' = a) by congruence. subst a'.
  destruct (nth_error_map_seq _ _ _ Hi) as [Hic ->].
  apply nth_error_concat_blocks.
  - intros k r Hk Hr.
    rewrite nth_error_map in Hr.
    destruct (nth_error arrays k) as [ak|] eqn:Eak; [|discriminate].
    injection Hr as <-.
    destruct (Forall2_nth_error_r _ Hlen Eak) as (ck & Hck & ->).
    destruct (nth_error_map_seq _ _ _ Hck) as [_ ->].
    rewrite nth_chunk_length. nia.
  - rewrite nth_error_map, Ha'. reflexivity.
  - destruct (Forall2_nth_error_l _ Hlen Hi) as (a'' & Ha'' & Hl).
    assert (a'' = a) by congruence. subst a''.
    rewrite Hl. exact Hj.
Qed.

End Claim_C2.

(** C2 at three texts and batch size 2, the second chunk finishing first. *)
Lemma chunked_results_in_input_order_witness :
  exists bs vs,
    batches_of (Toy.cls_service 2) ["a"; "b"; "c"]%string = Ok bs /\
    ((Z.of_nat (length bs) - 1) * 2 < 3 <= Z.of_nat (length bs) * 2)%Z /\
    Forall (fun c => (Z.of_nat (length c) <= 2)%Z) bs /\
    concat bs = ["a"; "b"; "c"]%string /\
    embed_sync (Toy.cls_service 2) (Lst ["a"; "b"; "c"]%string) = Ok (py_matrix vs) /\
    embed_async (Toy.cls_service 2) [1%nat] (Lst ["a"; "b"; "c"]%string) = Ok (py_matrix vs) /\
    length vs = 3%nat /\
    forall i j chunk a,
      nth_error bs i = Some chunk ->
      _embed_batch (Toy.cls_service 2) chunk = Ok a ->
      (j < length chunk)%nat ->
      nth_error vs (i * 2 + j) = nth_error (nd_rows a) j.
Proof.
  apply (@chunked_results_in_input_order (Toy.cls_service 2) 2 [1%nat]
           ["a"; "b"; "c"]%string).
  - reflexivity.
  - discriminate.
  - apply cls_well_shaped.
  - intros k _. apply cls_embed_batch_ok.
Defined.

Section Claim_C3.

Local Open Scope R_scope.




End Claim_C3.

Section Claim_C4.

Local Open Scope nat_scope.

(** C4. For a positive batch size and an encoder of a fixed hidden size D,
    when the inference of the batch [t] succeeds: [embed_sync] and
    [embed_async] given the string t return one flat vector v of D floats
    (not a list of vectors), given the list [t] they return the one-element
    list [v], so embed([t])[0] = embed(t); in general, with or without
    failure, embed(t) is embed([t]) followed by taking element 0. *)
Theorem single_string_yields_first_vector
    (self : OptimizedEmbeddingService) (D : nat) (oracle : list nat)
    (t : string) (a : ndarray) :
  (0 < batch_size self)%Z ->
  well_shaped self D ->
  _embed_batch self [t] = Ok a ->
  exists v,
    length v = D /\
    embed_sync self (Str t) = Ok (py_vector v) /\
    embed_sync self (Lst [t]) = Ok (py_matrix [v]) /\
    embed_async self oracle (Str t) = Ok (py_vector v) /\
    embed_async self oracle (Lst [t]) = Ok (py_matrix [v]) /\
    embed_sync self (Str t) = (r <- embed_sync self (Lst [t]) ;; getitem0 r) /\
    embed_async self oracle (Str t) =
      (r <- embed_async self oracle (Lst [t]) ;; getitem0 r).
Proof.
  intros HB Hws Ha.
  destruct (embed_batch_shape _ Hws Ha) as (_ & Hrows & Hlen).
  destruct (nd_rows a) as [|v [|v' rest]] eqn:Erows; try discriminate.
  inversion Hlen as [|? ? Hv _]; subst.
  assert (HF : forall x, texts_of x = [t] ->
            Forall2 (fun c a => _embed_batch self c = Ok a)
              (map (nth_chunk (Z.to_nat (batch_size self)) (texts_of x))
                   (seq 0 (chunk_count (length (texts_of x)) (batch_size self))))
              [a]).
  { intros x ->. cbn [length]. rewrite chunk_count_one by exact HB.
    cbn [seq map]. unfold nth_chunk. cbn [Nat.mul skipn].
    replace (firstn (Z.to_nat (batch_size self)) [t]) with [t]
      by (symmetry; apply firstn_all2; simpl; lia).
    constructor; [exact Ha | constructor]. }
  assert (Hstr : embed_sync self (Str t) = Ok (py_vector v)).
  { rewrite (embed_sync_returns (Str t) HB ltac:(discriminate) Hws (HF (Str t) eq_refl)).
    cbn [map concat]. rewrite Erows. reflexivity. }
  assert (Hlst : embed_sync self (Lst [t]) = Ok (py_matrix [v])).
  { rewrite (embed_sync_returns (Lst [t]) HB ltac:(discriminate) Hws (HF (Lst [t]) eq_refl)).
    cbn [map concat]. rewrite Erows. reflexivity. }
  exists v. split; [reflexivity|].
  split; [exact Hstr|]. split; [exact Hlst|].
  split; [apply embed_async_ok_iff; exact Hstr|].
  split; [apply embed_async_ok_iff; exact Hlst|].
  split.
  - apply single_text_is_first_of_singleton_sync.
  - apply single_text_is_first_of_singleton_async.
Qed.

End Claim_C4.

(** C4 at one text on the [CLS] service. *)
Lemma single_string_yields_first_vector_witness :
  exists v,
    length v = 2%nat /\
    embed_sync (Toy.cls_service 32) (Str "a") = Ok (py_vector v) /\
    embed_sync (Toy.cls_service 32) (Lst ["a"%string]) = Ok (py_matrix [v]) /\
    embed_async (Toy.cls_service 32) [] (Str "a") = Ok (py_vector v) /\
    embed_async (Toy.cls_service 32) [] (Lst ["a"%string]) = Ok (py_matrix [v]) /\
    embed_sync (Toy.cls_service 32) (Str "a") =
      (r <- embed_sync (Toy.cls_service 32) (Lst ["a"%string]) ;; getitem0 r) /\
    embed_async (Toy.cls_service 32) [] (Str "a") =
      (r <- embed_async (Toy.cls_service 32) [] (Lst ["a"%string]) ;; getitem0 r).
Proof.
  eapply (@single_string_yields_first_vector (Toy.cls_service 32) 2 [] "a").
  - reflexivity.
  - apply cls_well_shaped.
  - rewrite embed_batch_unfold. rewrite cls_pooled. reflexivity.
Defined.

Section Claim_C5.

Local Open Scope nat_scope.

(** C5. For every service, every request and every completion order of the
    chunk tasks, [embed_async] returns exactly what [embed_sync] returns
    (same shape, same vectors), and it raises exactly when [embed_sync]
    raises: the sequential loop and the gathered tasks compute the same
    function of the chunks. *)
Theorem embed_async_returns_as_embed_sync
    (self : OptimizedEmbeddingService) (oracle : list nat) (x : texts_arg) :
  returned (embed_async self oracle x) = returned (embed_sync self x).
Proof.
  exact (returned_async_sync self oracle x).
Qed.

End Claim_C5.

Section Claim_C6.

Local Open Scope R_scope.

(** C6 (as amended). When the empty string tokenizes to padding only (its
    mask row is all zero), embedding the list holding it does not divide by
    zero: the count of real tokens, 0, is floored to 1e-9 > 0, and the
    divisor of the normalisation is floored to 1e-12 > 0. Both entry points
    return one vector, all of whose D coordinates are 0: its L2 norm is 0,
    not 1. *)
Theorem padding_only_text_yields_zero_vector
    (self : OptimizedEmbeddingService) (oracle : list nat)
    (enc : Encoded) (tok : Tensor3) :
  (0 < batch_size self)%Z ->
  tokenizer self [EmptyString] (max_length self) = Ok enc ->
  hidden_states self [EmptyString] = Ok tok ->
  t3_d0 tok = 1%nat ->
  l2_d0 (attention_mask enc) = 1%nat ->
  l2_d1 (attention_mask enc) = t3_d1 tok ->
  (forall s, (s < t3_d1 tok)%nat -> l2_at (attention_mask enc) 0 s = 0%Z) ->
  Rmax (sum_upto (fun s => IZR (l2_at (attention_mask enc) 0 s)) (t3_d1 tok))
       pool_eps = pool_eps /\
  0 < pool_eps /\
  (forall pooled, 0 < Rmax (row_norm pooled 0) norm_eps) /\
  embed_sync self (Lst [EmptyString]) = Ok (py_matrix [repeat 0 (t3_d2 tok)]) /\
  embed_async self oracle (Lst [EmptyString]) =
    Ok (py_matrix [repeat 0 (t3_d2 tok)]) /\
  l2_norm (repeat 0 (t3_d2 tok)) = 0.
Proof.
  intros HB Htok Hhid Hd0 Hm0 Hm1 Hpad.
  destruct (padding_only_batch self EmptyString Htok Hhid Hd0 Hm0 Hm1 Hpad)
    as (a & Ha & Hrows).
  pose proof (@embed_sync_one_text self _ a HB Ha) as Hs. rewrite Hrows in Hs.
  split; [apply sum_upto_padding; exact Hpad|].
  split; [exact pool_eps_pos|].
  split; [intros pooled; apply norm_divisor_pos|].
  split; [exact Hs|].
  split; [apply embed_async_ok_iff; exact Hs|].
  apply l2_norm_zeros.
Qed.

(** C6, the claim as stated fails: with a tokenizer for which the empty
    string is padding only, the call returns the vector (0, 0), whose L2
    norm is not 1. *)
Lemma empty_string_vector_not_unit :
  embed_sync Toy.padded_service (Lst [EmptyString]) = Ok (py_matrix [[0; 0]]) /\
  embed_async Toy.padded_service [] (Lst [EmptyString]) = Ok (py_matrix [[0; 0]]) /\
  l2_norm [0; 0] <> 1.
Proof.
  split; [exact padded_embed_empty|].
  split; [apply embed_async_ok_iff; exact padded_embed_empty|].
  exact l2_norm_zero_pair.
Qed.

(** C6 at the empty string on the service whose tokenizer pads it. *)
Lemma padding_only_text_yields_zero_vector_witness :
  embed_sync Toy.padded_service (Lst [EmptyString]) = Ok (py_matrix [repeat 0 2]) /\
  embed_async Toy.padded_service [] (Lst [EmptyString]) = Ok (py_matrix [repeat 0 2]) /\
  l2_norm (repeat 0 2) = 0.
Proof.
  destruct (@padding_only_text_yields_zero_vector Toy.padded_service []
              (mkEncoded
                 (mkL2 1 1 (fun _ _ => 7%Z))
                 (mkL2 1 1 (fun b t =>
                              if (t <? String.length (nth b [EmptyString] EmptyString))%nat
                              then 1%Z else 0%Z)))
              (mkT3 1 1 2 (fun _ _ h => if (h =? 0)%nat then 3 else 4))
              eq_refl eq_refl eq_refl eq_refl eq_refl eq_refl
              (fun s _ => eq_refl))
    as (_ & _ & _ & Hs & Ha & Hn).
  auto.
Defined.

End Claim_C6.

Section Claim_C7.

Local Open Scope nat_scope.

(** C7 (as amended). Passing an empty list of texts fails inside the core,
    in [embed_sync] and in [embed_async] alike: no chunk is formed and
    stacking no array raises ValueError (a zero batch size raises
    ValueError already when the chunks are formed). The route /embed/batch
    rejects the empty list with status 400 before the core is reached. *)
Theorem empty_list_raises_in_core
    (self : OptimizedEmbeddingService) (oracle : list nat) :
  let msg := if (batch_size self =? 0)%Z
             then "range() arg 3 must not be zero"%string
             else "need at least one array to concatenate"%string in
  embed_sync self (Lst []) = Raise (ValueError msg) /\
  embed_async self oracle (Lst []) = Raise (ValueError msg) /\
  Api.embed_batch (Some self) oracle [] =
    Api.HTTPException 400 "Query list cannot be empty".
Proof.
  cbv zeta. repeat split.
  - apply embed_sync_empty_list.
  - apply embed_async_empty_list.
Qed.

(** C7, the claim as stated fails: on a service with the default batch size,
    both entry points raise on the empty list. *)
Lemma empty_list_not_allowed :
  embed_sync (Toy.cls_service 32) (Lst []) =
    Raise (ValueError "need at least one array to concatenate") /\
  embed_async (Toy.cls_service 32) [] (Lst []) =
    Raise (ValueError "need at least one array to concatenate").
Proof.
  split; reflexivity.
Qed.

End Claim_C7.

Section Claim_C8.

Local Open Scope nat_scope.

(** C8. When the inference of some chunk raises, [embed_async] raises, for
    every completion order of the chunk tasks: the caller gets no value at
    all (no partial result), and the exception is the one raised by a
    failing chunk, namely the first task to fail in completion order; it is
    the outcome of that chunk's only task (nothing is run again). *)
Theorem chunk_failure_fails_whole_call
    (self : OptimizedEmbeddingService) (oracle : list nat) (x : texts_arg)
    (bs : list (list string)) (i : nat) (chunk : list string) (e : exn) :
  batches_of self (texts_of x) = Ok bs ->
  nth_error bs i = Some chunk ->
  _embed_batch self chunk = Raise e ->
  exists j chunk' e',
    nth_error bs j = Some chunk' /\
    _embed_batch self chunk' = Raise e' /\
    first_exception (completion_order oracle (length bs))
                    (map (_embed_batch self) bs) = Some e' /\
    embed_async self oracle x = Raise e' /\
    returned (embed_async self oracle x) = None.
Proof.
  intros Hbs Hi He.
  assert (Hn : nth_error (map (_embed_batch self) bs) i = Some (Raise e)).
  { rewrite nth_error_map, Hi. cbn. now rewrite He. }
  destruct (@gather_raises _ oracle _ _ _ Hn) as (j & e' & Hj & Hfirst & Hg).
  rewrite length_map in Hfirst, Hg.
  rewrite nth_error_map in Hj.
  destruct (nth_error bs j) as [chunk'|] eqn:Ej; [|discriminate].
  cbn in Hj. injection Hj as Hj.
  assert (Hr : embed_async self oracle x = Raise e').
  { rewrite embed_async_unfold, Hbs. cbn [bind].
    rewrite length_map, Hg. reflexivity. }
  exists j, chunk', e'. repeat split; try assumption.
  now rewrite Hr.
Qed.

End Claim_C8.

(** C8 at three texts and batch size 2 on an encoder that fails on the first
    chunk, the second chunk finishing first. *)
Lemma chunk_failure_fails_whole_call_witness :
  exists j chunk' e',
    nth_error [["a"; "b"]; ["c"]]%string j = Some chunk' /\
    _embed_batch Toy.fragile_service chunk' = Raise e' /\
    first_exception (completion_order [1%nat] 2)
                    (map (_embed_batch Toy.fragile_service) [["a"; "b"]; ["c"]]%string)
      = Some e' /\
    embed_async Toy.fragile_service [1%nat] (Lst ["a"; "b"; "c"]%string) = Raise e' /\
    returned (embed_async Toy.fragile_service [1%nat] (Lst ["a"; "b"; "c"]%string)) = None.
Proof.
  apply (@chunk_failure_fails_whole_call Toy.fragile_service [1%nat]
           (Lst ["a"; "b"; "c"]%string) [["a"; "b"]; ["c"]]%string 0
           ["a"; "b"]%string (External 137)).
  - reflexivity.
  - reflexivity.
  - reflexivity.
Defined.

Section Claim_C9.

Local Open Scope nat_scope.

(** C9. On an encoder of a fixed hidden size D: [get_embedding_dimension]
    is [len] of what [embed_sync] returns for the probe string "test" (the
    value depends on the service only, so every call gives the same
    result); when the inference of the probe succeeds it returns D; and
    the integer it returns is the length of every vector that [embed_sync]
    or [embed_async] returns, for any request. *)
Theorem embedding_dimension_is_vector_length
    (self : OptimizedEmbeddingService) (D : nat) :
  well_shaped self D ->
  get_embedding_dimension self = (v <- embed_sync self (Str "test") ;; py_len v) /\
  (forall a, (0 < batch_size self)%Z ->
             _embed_batch self ["test"%string] = Ok a ->
             get_embedding_dimension self = Ok (Z.of_nat D)) /\
  (forall d oracle x r,
     get_embedding_dimension self = Ok d ->
     embed_sync self x = Ok r \/ embed_async self oracle x = Ok r ->
     exists vs, shaped_as x vs = Ok r /\
                Forall (fun v => Z.of_nat (length v) = d) vs).
Proof.
  intros Hws. split; [reflexivity|]. split.
  - intros a HB Ha.
    destruct (embed_batch_shape _ Hws Ha) as (_ & Hrows & Hlen).
    assert (Hsync : exists v, length v = D /\
                      embed_sync self (Str "test") = Ok (py_vector v)).
    { destruct (nd_rows a) as [|v [|v' rest]] eqn:Erows; try discriminate.
      inversion Hlen as [|? ? Hv _]; subst.
      exists v. split; [reflexivity|].
      assert (HF : Forall2 (fun c a => _embed_batch self c = Ok a)
                (map (nth_chunk (Z.to_nat (batch_size self)) (texts_of (Str "test")))
                     (seq 0 (chunk_count (length (texts_of (Str "test")))
                                         (batch_size self))))
                [a]).
      { cbn [texts_of length]. rewrite chunk_count_one by exact HB.
        cbn [seq map]. unfold nth_chunk. cbn [Nat.mul skipn].
        replace (firstn (Z.to_nat (batch_size self)) ["test"%string])
          with ["test"%string]
          by (symmetry; apply firstn_all2; simpl; lia).
        constructor; [exact Ha | constructor]. }
      rewrite (embed_sync_returns (Str "test") HB ltac:(discriminate) Hws HF).
      cbn [map concat]. rewrite Erows. reflexivity. }
    destruct Hsync as (v & Hv & Hs).
    unfold get_embedding_dimension. rewrite Hs. cbn [bind].
    rewrite py_len_vector. now rewrite Hv.
  - intros d oracle x r Hd Hr.
    assert (Hs : embed_sync self x = Ok r).
    { destruct Hr as [Hr|Hr]; [exact Hr | now apply embed_async_ok_iff in Hr]. }
    destruct (embed_sync_ok_rows _ Hws Hs) as (vs & Hshape & _ & HD).
    exists vs. split; [exact Hshape|].
    rewrite (dimension_of_probe Hws Hd).
    eapply Forall_impl; [|exact HD]. intros v Hv. simpl in Hv. now rewrite Hv.
Qed.

End Claim_C9.

(** C9 on the [CLS] service, whose hidden size is 2. *)
Lemma embedding_dimension_is_vector_length_witness :
  get_embedding_dimension (Toy.cls_service 32) = Ok 2%Z /\
  exists vs,
    shaped_as (Lst ["a"%string]) vs = Ok (py_matrix [[3 / 5; 4 / 5]]) /\
    Forall (fun v => Z.of_nat (length v) = 2%Z) vs.
Proof.
  destruct (@embedding_dimension_is_vector_length (Toy.cls_service 32) 2
              (@cls_well_shaped 32%Z)) as (_ & Hdim & Hlen).
  destruct (cls_embed_batch_ok 32 ["test"%string]) as [a Ha].
  pose proof (Hdim a eq_refl Ha) as Hd.
  split; [exact Hd|].
  apply (Hlen 2%Z [] (Lst ["a"%string]) _ Hd). left. exact cls_embed_a.
Defined.

Section Claim_C10.

Local Open Scope nat_scope.

(** C10. On an encoder of a fixed positive hidden size, when [embed_async]
    returns for the request of [POST /embed]: for a list of n strings the
    response carries the n vectors, count = n and dimension = the length
    of the first vector; for a single string the response carries one flat
    vector, count = 1 and dimension = that vector's length. The route
    tells the two cases apart by testing whether element 0 of the core's
    result is a list, which is so exactly in the list case. *)
Theorem embed_route_count_and_dimension
    (self : OptimizedEmbeddingService) (D : nat) (oracle : list nat)
    (x : texts_arg) (r : pyval) :
  well_shaped self D ->
  0 < D ->
  embed_async self oracle x = Ok r ->
  match x with
  | Lst texts =>
      exists v0 vs,
        r = py_matrix (v0 :: vs) /\
        length (v0 :: vs) = length texts /\
        (first <- getitem0 r ;; Ok (isinstance_list first)) = Ok true /\
        Api.embed (Some self) oracle x =
          Api.EmbeddingResponse r (Z.of_nat (length v0)) (Z.of_nat (length texts))
  | Str _ =>
      exists v,
        r = py_vector v /\
        (first <- getitem0 r ;; Ok (isinstance_list first)) = Ok false /\
        Api.embed (Some self) oracle x =
          Api.EmbeddingResponse r (Z.of_nat (length v)) 1
  end.
Proof.
  intros Hws HD Hr.
  pose proof Hr as Hs. apply embed_async_ok_iff in Hs.
  destruct (embed_sync_ok_inv _ _ Hs) as (_ & Hne & _).
  destruct (embed_sync_ok_rows _ Hws Hs) as (vs & Hshape & Hlen & HDs).
  destruct x as [s|texts]; cbn [texts_of shaped_as length] in *.
  - destruct vs as [|v [|v' rest]]; try discriminate.
    cbn in Hshape. injection Hshape as <-.
    inversion HDs as [|? ? Hv _]; subst.
    destruct v as [|x0 v]; [simpl in HD; lia|].
    exists (x0 :: v). split; [reflexivity|]. split; [reflexivity|].
    unfold Api.embed. rewrite Hr. cbn [bind py_vector map getitem0 isinstance_list].
    pose proof (py_len_vector (x0 :: v)) as L. cbn [py_vector map] in L.
    rewrite L. reflexivity.
  - injection Hshape as <-.
    destruct vs as [|v0 vs]; [destruct texts; [congruence | discriminate]|].
    exists v0, vs. split; [reflexivity|]. split; [exact Hlen|].
    split; [reflexivity|].
    unfold Api.embed. rewrite Hr.
    cbn [bind py_matrix map getitem0 isinstance_list py_vector].
    pose proof (py_len_matrix (v0 :: vs)) as L. cbn [py_matrix map py_vector] in L.
    rewrite L. cbn [bind].
    pose proof (py_len_vector v0) as L0. cbn [py_vector] in L0.
    rewrite L0. cbn [bind]. now rewrite Hlen.
Qed.

End Claim_C10.

(** C10 at a list of one text on the [CLS] service. *)
Lemma embed_route_count_and_dimension_witness :
  exists v0 vs,
    py_matrix [[3 / 5; 4 / 5]] = py_matrix (v0 :: vs) /\
    length (v0 :: vs) = 1%nat /\
    (first <- getitem0 (py_matrix [[3 / 5; 4 / 5]]) ;; Ok (isinstance_list first)) = Ok true /\
    Api.embed (Some (Toy.cls_service 32)) [] (Lst ["a"%string]) =
      Api.EmbeddingResponse (py_matrix [[3 / 5; 4 / 5]]) (Z.of_nat (length v0)) 1.
Proof.
  apply (@embed_route_count_and_dimension (Toy.cls_service 32) 2 []
           (Lst ["a"%string]) (py_matrix [[3 / 5; 4 / 5]])).
  - apply cls_well_shaped.
  - lia.
  - apply embed_async_ok_iff. exact cls_embed_a.
Defined.

(** * Further properties of the code *)

(** ** Scheduling: batch sizes, chunks and failures *)

Section Scheduling.

Local Open Scope nat_scope.

Lemma completion_order_nil (oracle : list nat) : completion_order oracle 0 = [].
Proof. reflexivity. Qed.

Lemma completion_order_one (oracle : list nat) : completion_order oracle 1 = [0].
Proof.
  unfold completion_order. cbn [seq pick_order length].
  rewrite Nat.mod_1_r. reflexivity.
Qed.

(** The positional collection raises the exception of the first task, by
    position, that raised. *)
Lemma results_in_order_first_raise {A : Type} (tasks : list (res A)) (i : nat)
    (e : exn) :
  nth_error tasks i = Some (Raise e) ->
  (forall j, j < i -> exists a, nth_error tasks j = Some (Ok a)) ->
  results_in_order tasks = Raise e.
Proof.
  revert tasks. induction i as [|i IH]; intros [|t tasks] Hi Hbefore;
    simpl in Hi; try discriminate.
  - injection Hi as ->. reflexivity.
  - destruct (Hbefore 0 ltac:(lia)) as [a Ha]. simpl in Ha.
    injection Ha as ->. cbn [results_in_order bind].
    rewrite (IH tasks Hi); [reflexivity|].
    intros j Hj. apply (Hbefore (S j)). lia.
Qed.

(** X1. With a batch size of zero or below, both entry points raise
    ValueError for every request. *)
Theorem nonpositive_batch_size_raises
    (self : OptimizedEmbeddingService) (oracle : list nat) (x : texts_arg) :
  (batch_size self <= 0)%Z ->
  exists msg,
    embed_sync self x = Raise (ValueError msg) /\
    embed_async self oracle x = Raise (ValueError msg).
Proof.
  intros HB. rewrite embed_sync_unfold, embed_async_unfold.
  destruct (Z.eq_dec (batch_size self) 0) as [Hz|Hnz].
  - rewrite batches_of_zero by exact Hz. eexists. split; reflexivity.
  - rewrite batches_of_negative by lia. eexists. split; reflexivity.
Qed.

(** X1 at batch size 0. *)
Lemma nonpositive_batch_size_raises_witness :
  exists msg,
    embed_sync (Toy.cls_service 0) (Str "a") = Raise (ValueError msg) /\
    embed_async (Toy.cls_service 0) [] (Str "a") = Raise (ValueError msg).
Proof.
  apply (@nonpositive_batch_size_raises (Toy.cls_service 0) [] (Str "a")).
  simpl. lia.
Defined.

(** X2. [embed_sync] raises the exception of the first chunk, in input
    order, whose inference fails. *)
Theorem embed_sync_raises_first_failure
    (self : OptimizedEmbeddingService) (x : texts_arg)
    (bs : list (list string)) (i : nat) (chunk : list string) (e : exn) :
  batches_of self (texts_of x) = Ok bs ->
  nth_error bs i = Some chunk ->
  _embed_batch self chunk = Raise e ->
  (forall j c, j < i -> nth_error bs j = Some c ->
               exists a, _embed_batch self c = Ok a) ->
  embed_sync self x = Raise e.
Proof.
  intros Hbs Hi He Hbefore.
  rewrite embed_sync_unfold, Hbs. cbn [bind].
  rewrite (@results_in_order_first_raise _ (map (_embed_batch self) bs) i e);
    [reflexivity| |].
  - rewrite nth_error_map, Hi. cbn. now rewrite He.
  - intros j Hj.
    assert (Hlt : j < length bs).
    { assert (i < length bs) by (apply nth_error_Some; congruence). lia. }
    destruct (nth_error bs j) as [c|] eqn:Ej;
      [|apply nth_error_None in Ej; lia].
    destruct (Hbefore j c Hj Ej) as [a Ha].
    exists a. rewrite nth_error_map, Ej. cbn. now rewrite Ha.
Qed.

Lemma one_call_when_list_fits
    (self : OptimizedEmbeddingService) (oracle : list nat)
    (texts : list string) :
  texts <> [] ->
  (Z.of_nat (length texts) <= batch_size self)%Z ->
  embed_sync self (Lst texts) = (a <- _embed_batch self texts ;; Ok (tolist a)) /\
  embed_async self oracle (Lst texts) =
    (a <- _embed_batch self texts ;; Ok (tolist a)).
Proof.
  intros Hne Hfit.
  assert (HB : (0 < batch_size self)%Z).
  { destruct texts; [congruence | simpl in Hfit; lia]. }
  assert (Hone : chunk_count (length texts) (batch_size self) = 1).
  { pose proof (chunk_count_ceil (length texts) HB).
    destruct texts; [congruence|]. simpl length in *. nia. }
  assert (Hbs : batches_of self texts = Ok [texts]).
  { rewrite batches_of_spec, Hone by exact HB. cbn [seq map].
    unfold nth_chunk. cbn [Nat.mul skipn].
    rewrite firstn_all2 by lia. reflexivity. }
  rewrite embed_sync_unfold, embed_async_unfold. cbn [texts_of].
  rewrite Hbs. cbn [bind map length]. rewrite completion_order_one.
  unfold gather. cbn [first_exception nth_error results_in_order].
  unfold tolist.
  destruct (_embed_batch self texts) as [a|e]; cbn [bind vstack forallb];
    [|split; reflexivity].
  cbn [map concat nd_rows shaped_as]. rewrite app_nil_r. split; reflexivity.
Qed.

(** X5. A non-empty list no longer than the batch size is embedded by one
    inference call on the whole list: both entry points return the rows of
    that call, and raise what it raises. *)
Theorem list_within_batch_size_is_one_call
    (self : OptimizedEmbeddingService) (oracle : list nat)
    (texts : list string) :
  texts <> [] ->
  (Z.of_nat (length texts) <= batch_size self)%Z ->
  embed_sync self (Lst texts) = (a <- _embed_batch self texts ;; Ok (tolist a)) /\
  embed_async self oracle (Lst texts) =
    (a <- _embed_batch self texts ;; Ok (tolist a)).
Proof.
  exact (@one_call_when_list_fits self oracle texts).
Qed.

(** X6. Every chunk handed to inference is non-empty, and every chunk but
    the last holds exactly [batch_size] texts. *)
Theorem chunks_nonempty_and_full
    (self : OptimizedEmbeddingService) (texts : list string)
    (bs : list (list string)) :
  batches_of self texts = Ok bs ->
  Forall (fun c => c <> []) bs /\
  forall i c, S i < length bs -> nth_error bs i = Some c ->
              Z.of_nat (length c) = batch_size self.
Proof.
  intros Hbs.
  destruct (Z.lt_trichotomy (batch_size self) 0) as [Hneg|[Hz|HB]].
  - rewrite batches_of_negative in Hbs by exact Hneg. injection Hbs as <-.
    split; [constructor | simpl; intros; lia].
  - rewrite batches_of_zero in Hbs by exact Hz. discriminate.
  - rewrite batches_of_spec in Hbs by exact HB. injection Hbs as <-.
    pose proof (chunk_count_ceil (length texts) HB) as Hceil.
    split.
    + apply Forall_forall. intros c Hc. apply in_map_iff in Hc.
      destruct Hc as (k & <- & Hk). apply in_seq in Hk.
      intros Hnil. apply (f_equal (@length string)) in Hnil.
      rewrite nth_chunk_length in Hnil. simpl in Hnil. nia.
    + intros i c Hi Hc. rewrite length_map, length_seq in Hi.
      apply nth_error_map_seq in Hc. destruct Hc as [_ ->].
      rewrite nth_chunk_length. nia.
Qed.

End Scheduling.

(** ** Chunking is transparent *)

Section Concatenation.

Local Open Scope nat_scope.

Lemma nth_chunk_app_left {A : Type} (b k i : nat) (l1 l2 : list A) :
  length l1 = k * b -> i < k ->
  nth_chunk b (l1 ++ l2) i = nth_chunk b l1 i.
Proof.
  intros Hlen Hi. unfold nth_chunk.
  rewrite skipn_app, firstn_app, length_skipn.
  replace (b - (length l1 - i * b)) with 0 by nia.
  now rewrite firstn_O, app_nil_r.
Qed.

Lemma nth_chunk_app_right {A : Type} (b k j : nat) (l1 l2 : list A) :
  length l1 = k * b ->
  nth_chunk b (l1 ++ l2) (k + j) = nth_chunk b l2 j.
Proof.
  intros Hlen. unfold nth_chunk.
  rewrite skipn_app, (skipn_all2 l1) by nia.
  replace ((k + j) * b - length l1) with (j * b) by nia.
  reflexivity.
Qed.

Lemma map_seq_from {A : Type} (f : nat -> A) (k c : nat) :
  map f (seq k c) = map (fun j => f (k + j)) (seq 0 c).
Proof.
  revert k. induction c as [|c IH]; intros k; [reflexivity|].
  cbn [seq map]. rewrite Nat.add_0_r. f_equal.
  rewrite IH, <- seq_shift, map_map.
  apply map_ext. intros j. f_equal. lia.
Qed.

Lemma chunk_count_multiple (k : nat) (B : Z) :
  (0 < B)%Z -> chunk_count (k * Z.to_nat B) B = k.
Proof.
  intros HB. pose proof (chunk_count_ceil (k * Z.to_nat B) HB). nia.
Qed.

Lemma chunk_count_app (k n2 : nat) (B : Z) :
  (0 < B)%Z ->
  chunk_count (k * Z.to_nat B + n2) B = k + chunk_count n2 B.
Proof.
  intros HB.
  pose proof (chunk_count_ceil (k * Z.to_nat B + n2) HB).
  pose proof (chunk_count_ceil n2 HB). nia.
Qed.

(** The chunks of a concatenation whose first part fills whole chunks are
    the chunks of the parts. *)
Lemma chunks_app (B : Z) (k : nat) (l1 l2 : list string) :
  (0 < B)%Z -> length l1 = k * Z.to_nat B ->
  map (nth_chunk (Z.to_nat B) (l1 ++ l2))
      (seq 0 (chunk_count (length (l1 ++ l2)) B)) =
  map (nth_chunk (Z.to_nat B) l1) (seq 0 (chunk_count (length l1) B)) ++
  map (nth_chunk (Z.to_nat B) l2) (seq 0 (chunk_count (length l2) B)).
Proof.
  intros HB Hlen.
  rewrite length_app, Hlen, chunk_count_app, chunk_count_multiple by exact HB.
  rewrite seq_app, map_app. f_equal.
  - apply map_ext_in. intros i Hi. apply in_seq in Hi.
    apply nth_chunk_app_left with (k := k); [exact Hlen | lia].
  - rewrite map_seq_from. apply map_ext. intros j.
    now apply nth_chunk_app_right.
Qed.

(** X4. Chunking is transparent: when the first list fills whole chunks,
    embedding a concatenation returns the vectors of the first list
    followed by the vectors of the second, for both entry points. *)
Theorem embed_of_concatenation
    (self : OptimizedEmbeddingService) (D : nat) (oracle : list nat)
    (k : nat) (l1 l2 : list string) (r1 r2 : pyval) :
  well_shaped self D ->
  length l1 = k * Z.to_nat (batch_size self) ->
  embed_sync self (Lst l1) = Ok r1 ->
  embed_sync self (Lst l2) = Ok r2 ->
  exists vs1 vs2,
    r1 = py_matrix vs1 /\ r2 = py_matrix vs2 /\
    embed_sync self (Lst (l1 ++ l2)) = Ok (py_matrix (vs1 ++ vs2)) /\
    embed_async self oracle (Lst (l1 ++ l2)) = Ok (py_matrix (vs1 ++ vs2)).
Proof.
  intros Hws Hlen H1 H2.
  destruct (embed_sync_ok_inv _ _ H1) as (HB & Hne1 & arrays1 & HF1 & Hr1).
  destruct (embed_sync_ok_inv _ _ H2) as (_ & _ & arrays2 & HF2 & Hr2).
  cbn [texts_of shaped_as] in *.
  injection Hr1 as <-. injection Hr2 as <-.
  exists (concat (map nd_rows arrays1)), (concat (map nd_rows arrays2)).
  split; [reflexivity|]. split; [reflexivity|].
  assert (Hs : embed_sync self (Lst (l1 ++ l2)) =
               Ok (py_matrix (concat (map nd_rows arrays1) ++
                              concat (map nd_rows arrays2)))).
  { rewrite <- concat_app, <- map_app.
    apply (@embed_sync_returns self D (Lst (l1 ++ l2)) (arrays1 ++ arrays2) HB).
    - cbn [texts_of]. destruct l1; [congruence | discriminate].
    - exact Hws.
    - cbn [texts_of]. rewrite (@chunks_app (batch_size self) k l1 l2 HB Hlen).
      now apply Forall2_app. }
  split; [exact Hs|]. apply embed_async_ok_iff. exact Hs.
Qed.

End Concatenation.

(** ** Mean pooling *)

Section Pooling.

Local Open Scope R_scope.

(** X7. Token vectors at masked-out positions have no influence: two
    batches of token vectors that agree wherever the mask is not zero pool
    to the same values. *)
Theorem masked_positions_are_ignored
    (tok tok' : Tensor3) (mask : LongTensor2) (pooled pooled' : Tensor2) :
  l2_d0 mask = t3_d0 tok -> l2_d1 mask = t3_d1 tok ->
  t3_d0 tok' = t3_d0 tok -> t3_d1 tok' = t3_d1 tok -> t3_d2 tok' = t3_d2 tok ->
  _mean_pooling tok mask = Ok pooled ->
  _mean_pooling tok' mask = Ok pooled' ->
  (forall b s h, (s < t3_d1 tok)%nat -> l2_at mask b s <> 0%Z ->
                 t3_at tok b s h = t3_at tok' b s h) ->
  t2_d0 pooled' = t2_d0 pooled /\ t2_d1 pooled' = t2_d1 pooled /\
  forall b h, t2_at pooled' b h = t2_at pooled b h.
Proof.
  intros H0 H1 E0 E1 E2 Hp Hp' Hagree.
  rewrite (mean_pooling_formula _ _ H0 H1) in Hp.
  rewrite (mean_pooling_formula tok' mask) in Hp' by congruence.
  injection Hp as <-. injection Hp' as <-. cbn [t2_d0 t2_d1 t2_at].
  split; [exact E0|]. split; [exact E2|].
  intros b h. rewrite E1. f_equal.
  apply sum_upto_ext. intros s Hs.
  destruct (Z.eq_dec (l2_at mask b s) 0) as [Hz|Hnz].
  - rewrite Hz. ring.
  - now rewrite (Hagree b s h Hs Hnz).
Qed.



End Pooling.

(** ** The routes *)

Section Routes.

Local Open Scope nat_scope.

Lemma embed_async_list_is_matrix (self : OptimizedEmbeddingService)
    (oracle : list nat) (qs : list string) (r : pyval) :
  embed_async self oracle (Lst qs) = Ok r -> exists vs, r = py_matrix vs.
Proof.
  rewrite embed_async_unfold. cbn [texts_of shaped_as].
  destruct (batches_of self qs) as [bs|e]; cbn [bind]; [|discriminate].
  destruct (gather _ _) as [arrays|e]; cbn [bind]; [|discriminate].
  destruct (vstack arrays) as [a|e]; cbn [bind]; [|discriminate].
  intros H. injection H as <-. eexists. reflexivity.
Qed.

Lemma routes_agree_on_lists (svc : option OptimizedEmbeddingService)
    (oracle : list nat) (q : string) (qs : list string) :
  Api.embed_batch svc oracle (q :: qs) = Api.embed svc oracle (Lst (q :: qs)).
Proof.
  destruct svc as [self|]; [|reflexivity].
  unfold Api.embed_batch, Api.embed.
  destruct (embed_async self oracle (Lst (q :: qs))) as [r|e] eqn:E;
    cbn [bind]; [|reflexivity].
  destruct (embed_async_list_is_matrix _ _ _ E) as [vs ->].
  destruct vs as [|v0 vs]; [reflexivity|].
  cbn [py_matrix map getitem0 bind isinstance_list py_vector py_len].
  reflexivity.
Qed.

(** X10. For every non-empty list of queries, [POST /embed/batch] answers
    exactly what [POST /embed] answers for that list, also when the service
    is not initialised or the core fails. *)
Theorem embed_batch_route_agrees_with_embed_route
    (svc : option OptimizedEmbeddingService) (oracle : list nat)
    (queries : list string) :
  queries <> [] ->
  Api.embed_batch svc oracle queries = Api.embed svc oracle (Lst queries).
Proof.
  intros Hne. destruct queries as [|q qs]; [congruence|].
  apply routes_agree_on_lists.
Qed.

(** A successful answer of [POST /embed] reports the hidden size. *)
Lemma embed_route_dimension (self : OptimizedEmbeddingService) (D : nat)
    (oracle : list nat) (q : texts_arg) (r : pyval) (dim cnt : Z) :
  well_shaped self D ->
  Api.embed (Some self) oracle q = Api.EmbeddingResponse r dim cnt ->
  dim = Z.of_nat D.
Proof.
  intros Hws H. unfold Api.embed in H.
  destruct (embed_async self oracle q) as [r'|e] eqn:E; cbn [bind] in H;
    [|discriminate].
  apply embed_async_ok_iff in E.
  destruct (embed_sync_ok_rows _ Hws E) as (vs & Hshape & Hlen & HD).
  destruct q as [s|texts]; cbn [texts_of shaped_as length] in *.
  - destruct vs as [|v [|v' rest]]; try discriminate.
    cbn in Hshape. injection Hshape as <-.
    inversion HD as [|? ? Hv _]; subst.
    destruct v as [|x0 v]; [discriminate|].
    cbn [py_vector map getitem0 bind isinstance_list py_len] in H.
    injection H as _ <- _. now rewrite length_map.
  - injection Hshape as <-.
    destruct vs as [|v0 vs]; [discriminate|].
    inversion HD as [|? ? Hv _]; subst.
    cbn [py_matrix map getitem0 bind isinstance_list py_vector py_len] in H.
    injection H as _ <- _. now rewrite length_map.
Qed.

(** X11. The dimension [GET /health] reports is the dimension of every
    successful answer of [POST /embed] and [POST /embed/batch]. *)
Theorem health_dimension_is_embed_dimension
    (inst : ServiceInstance) (D : nat) (oracle : list nat)
    (q : texts_arg) (queries : list string) (r : pyval) (dim cnt d : Z)
    (status name dev : string) :
  well_shaped (core inst) D ->
  Lifecycle.health (Some inst) = Ok (Lifecycle.HealthResponse status name dev d) ->
  Api.embed (Some (core inst)) oracle q = Api.EmbeddingResponse r dim cnt \/
  Api.embed_batch (Some (core inst)) oracle queries = Api.EmbeddingResponse r dim cnt ->
  dim = d.
Proof.
  intros Hws Hh Hr.
  assert (Hd : d = Z.of_nat D).
  { unfold Lifecycle.health in Hh.
    destruct (get_embedding_dimension (core inst)) as [d'|e] eqn:E;
      cbn [bind] in Hh; [|discriminate].
    injection Hh as _ _ _ <-. exact (dimension_of_probe Hws E). }
  rewrite Hd. destruct Hr as [Hr|Hr].
  - exact (embed_route_dimension _ _ Hws Hr).
  - destruct queries as [|q0 qs]; [discriminate|].
    rewrite routes_agree_on_lists in Hr.
    exact (embed_route_dimension _ _ Hws Hr).
Qed.

(** X12. [GET /health] runs the probe outside any handler: when the
    inference of the probe fails, the exception leaves the route, whereas
    the same failure on [POST /embed] is answered with status 500. *)
Theorem health_probe_failure_escapes
    (inst : ServiceInstance) (oracle : list nat) (e : exn) :
  (0 < batch_size (core inst))%Z ->
  _embed_batch (core inst) ["test"%string] = Raise e ->
  Lifecycle.health (Some inst) = Raise e /\
  Api.embed (Some (core inst)) oracle (Str "test") =
    Api.HTTPException 500 ("Error generating embeddings: " ++ Api.exn_str e).
Proof.
  intros HB He.
  destruct (@one_call_when_list_fits (core inst) oracle ["test"%string])
    as [Hs Ha]; [discriminate | simpl; lia |].
  rewrite He in Hs, Ha. cbn [bind] in Hs, Ha. split.
  - unfold Lifecycle.health, get_embedding_dimension.
    rewrite single_text_is_first_of_singleton_sync, Hs. reflexivity.
  - unfold Api.embed.
    rewrite single_text_is_first_of_singleton_async, Ha. reflexivity.
Qed.

End Routes.

(** ** Construction and start-up *)

Section Construction.

Local Open Scope Z_scope.

(** X13. With the tokenizer and the model loaded: on cpu with torch
    reporting no thread, setting the thread count raises RuntimeError and no
    service is built, whatever pool size is asked for. Otherwise, when no
    pool size is given, the constructor succeeds with a pool of 8 workers
    if torch reports no thread and of min(32, threads) otherwise, so of 1
    to 32 workers, and keeps the batch size and the maximal length as
    given; an explicit pool size of zero or below makes it raise
    ValueError. The device is cuda when available, else mps when available,
    else cpu. *)
Theorem constructor_pool_and_device
    (env : TorchEnv) (name : string) (bs ml : Z)
    (tk : list string -> Z -> res Encoded) (m : Encoded -> res ModelOutput) :
  tokenizer_from_pretrained env name = Ok tk ->
  model_from_pretrained env name = Ok m ->
  0 <= get_num_threads env ->
  (_get_optimal_device env = cpu /\ get_num_threads env = 0 ->
   forall mw, exists msg,
     __init__ env name mw bs ml = Raise (RuntimeError msg)) /\
  (~ (_get_optimal_device env = cpu /\ get_num_threads env = 0) ->
   (exists w,
      __init__ env name None bs ml =
        Ok (mkInstance (mkService bs ml tk m) name (_get_optimal_device env) w) /\
      1 <= w <= 32 /\
      w = (if get_num_threads env =? 0 then 8 else Z.min 32 (get_num_threads env))) /\
   (forall w, w <= 0 ->
      exists msg, __init__ env name (Some w) bs ml = Raise (ValueError msg))) /\
  (_get_optimal_device env = cuda <-> cuda_is_available env = true) /\
  (_get_optimal_device env = cpu <->
   cuda_is_available env = false /\ mps_is_available env = false).
Proof.
  intros Htk Hm Hthreads. split; [|split; [|split]].
  - intros [Hcpu Hz] mw. unfold __init__, set_num_threads.
    rewrite Htk, Hm, Hcpu, Hz. cbn. eexists. reflexivity.
  - intros Hnot.
    assert (Hset : match _get_optimal_device env with
                   | cpu => set_num_threads (get_num_threads env)
                   | _ => Ok tt
                   end = Ok tt).
    { destruct (_get_optimal_device env); try reflexivity.
      unfold set_num_threads.
      destruct (Z.leb_spec (get_num_threads env) 0); [|reflexivity].
      exfalso. apply Hnot. split; [reflexivity | lia]. }
    split.
    + exists (Z.min 32 (or_8 (get_num_threads env))).
      unfold __init__, ThreadPoolExecutor, or_8. rewrite Htk, Hm. cbn [bind].
      rewrite Hset. cbn [bind].
      destruct (Z.eqb_spec (get_num_threads env) 0) as [Hz|Hnz].
      * cbn. repeat split; lia.
      * destruct (Z.leb_spec (Z.min 32 (get_num_threads env)) 0); [lia|].
        repeat split; lia.
    + intros w Hw. unfold __init__, ThreadPoolExecutor. rewrite Htk, Hm.
      cbn [bind]. rewrite Hset. cbn [bind].
      destruct (Z.leb_spec w 0); [|lia].
      eexists. reflexivity.
  - unfold _get_optimal_device.
    destruct (cuda_is_available env), (mps_is_available env);
      intuition congruence.
  - unfold _get_optimal_device.
    destruct (cuda_is_available env), (mps_is_available env);
      intuition congruence.
Qed.

(** X14. When start-up completes, the service bound to the application has
    batch size 32, maximal length 512, the fixed model name and a pool of
    1 to 32 workers, and the inference of the probe text has succeeded;
    start-up raises when loading or the probe fails. *)
Theorem started_service_configuration
    (env : TorchEnv) (inst : ServiceInstance) :
  Lifecycle.lifespan_startup env = Ok inst ->
  batch_size (core inst) = 32 /\
  max_length (core inst) = 512 /\
  model_name inst = "togethercomputer/m2-bert-80M-32k-retrieval"%string /\
  device inst = _get_optimal_device env /\
  1 <= executor inst <= 32 /\
  (exists a, _embed_batch (core inst) ["test"%string] = Ok a).
Proof.
  unfold Lifecycle.lifespan_startup. intros H.
  destruct (__init__ env _ None 32 512) as [i|e] eqn:Ei; cbn [bind] in H;
    [|discriminate].
  destruct (get_embedding_dimension (core i)) as [d|e] eqn:Ed;
    cbn [bind] in H; [|discriminate].
  injection H as ->.
  unfold __init__, ThreadPoolExecutor in Ei.
  destruct (tokenizer_from_pretrained env _) as [tk|e]; cbn [bind] in Ei;
    [|discriminate].
  destruct (model_from_pretrained env _) as [m|e]; cbn [bind] in Ei;
    [|discriminate].
  destruct (match _get_optimal_device env with
            | cpu => set_num_threads (get_num_threads env)
            | _ => Ok tt
            end) as [[]|e]; cbn [bind] in Ei; [|discriminate].
  destruct (Z.leb_spec (Z.min 32 (or_8 (get_num_threads env))) 0) as [|Hpos];
    [discriminate|].
  cbn [bind] in Ei. injection Ei as <-.
  cbn [core batch_size max_length model_name device executor] in *.
  repeat split; try lia.
  - unfold get_embedding_dimension in Ed.
    destruct (embed_sync _ (Str "test")) as [r|e] eqn:Es; cbn [bind] in Ed;
      [|discriminate].
    destruct (embed_sync_ok_inv _ _ Es) as (HB & _ & arrays & HF & _).
    cbn [texts_of length batch_size] in HF.
    rewrite chunk_count_one in HF by lia. cbn [seq map] in HF.
    inversion HF as [|c a ? ? Hca _]; subst.
    exists a. exact Hca.
Qed.

End Construction.

(** ** A single failing chunk *)

Section Single_failure.

Local Open Scope nat_scope.

(** X15. When exactly one chunk fails, both entry points raise that
    chunk's exception, [embed_async] under every completion order. *)
Theorem single_failure_is_reported_alike
    (self : OptimizedEmbeddingService) (oracle : list nat) (x : texts_arg)
    (bs : list (list string)) (i : nat) (chunk : list string) (e : exn) :
  batches_of self (texts_of x) = Ok bs ->
  nth_error bs i = Some chunk ->
  _embed_batch self chunk = Raise e ->
  (forall j c, j <> i -> nth_error bs j = Some c ->
               exists a, _embed_batch self c = Ok a) ->
  embed_sync self x = Raise e /\ embed_async self oracle x = Raise e.
Proof.
  intros Hbs Hi He Hothers.
  assert (Hn : nth_error (map (_embed_batch self) bs) i = Some (Raise e)).
  { rewrite nth_error_map, Hi. cbn. now rewrite He. }
  split.
  - rewrite embed_sync_unfold, Hbs. cbn [bind].
    rewrite (@results_in_order_first_raise _ (map (_embed_batch self) bs) i e);
      [reflexivity | exact Hn |].
    intros j Hj.
    assert (Hlt : j < length bs).
    { assert (i < length bs) by (apply nth_error_Some; congruence). lia. }
    destruct (nth_error bs j) as [c|] eqn:Ej;
      [|apply nth_error_None in Ej; lia].
    destruct (Hothers j c ltac:(lia) Ej) as [a Ha].
    exists a. rewrite nth_error_map, Ej. cbn. now rewrite Ha.
  - destruct (@gather_raises _ oracle _ _ _ Hn) as (j & e' & Hj & _ & Hg).
    rewrite nth_error_map in Hj.
    destruct (nth_error bs j) as [c|] eqn:Ej; [|discriminate].
    cbn in Hj. injection Hj as Hj.
    assert (e' = e).
    { destruct (Nat.eq_dec j i) as [->|Hne]; [congruence|].
      destruct (Hothers j c Hne Ej) as [a Ha]. congruence. }
    subst e'. rewrite embed_async_unfold, Hbs. cbn [bind].
    rewrite Hg. reflexivity.
Qed.

End Single_failure.

(** ** The further properties at concrete inputs *)

Section Further_witnesses.

Local Open Scope R_scope.

Lemma cls_sync_is_one_call (B : Z) (texts : list string) :
  texts <> [] -> (Z.of_nat (length texts) <= B)%Z ->
  exists a, _embed_batch (Toy.cls_service B) texts = Ok a /\
            embed_sync (Toy.cls_service B) (Lst texts) = Ok (tolist a).
Proof.
  intros Hne Hfit.
  destruct (cls_embed_batch_ok B texts) as [a Ha]. exists a.
  split; [exact Ha|].
  destruct (@one_call_when_list_fits (Toy.cls_service B) [] texts Hne Hfit)
    as [Hs _].
  rewrite Hs, Ha. reflexivity.
Qed.

Lemma cls_dimension : get_embedding_dimension (Toy.cls_service 32) = Ok 2%Z.
Proof.
  unfold get_embedding_dimension.
  rewrite single_text_is_first_of_singleton_sync.
  destruct (@one_call_when_list_fits (Toy.cls_service 32) [] ["test"%string])
    as [Hs _]; [discriminate | simpl; lia |].
  rewrite Hs, embed_batch_unfold, cls_pooled. reflexivity.
Qed.

Lemma cls_embed_route_a :
  Api.embed (Some (Toy.cls_service 32)) [] (Lst ["a"%string]) =
  Api.EmbeddingResponse (py_matrix [[3 / 5; 4 / 5]]) 2 1.
Proof.
  unfold Api.embed.
  rewrite (proj2 (embed_async_ok_iff (Toy.cls_service 32) []
                    (Lst ["a"%string]) (py_matrix [[3 / 5; 4 / 5]])) cls_embed_a).
  reflexivity.
Qed.

(** X2 at three texts and batch size 2 on an encoder that fails on the
    second chunk. *)
Lemma embed_sync_raises_first_failure_witness :
  embed_sync ToyFailures.short_batch_fails_service (Lst ["a"; "b"; "c"]%string) =
  Raise (External 1).
Proof.
  apply (@embed_sync_raises_first_failure ToyFailures.short_batch_fails_service
           (Lst ["a"; "b"; "c"]%string) [["a"; "b"]; ["c"]]%string 1
           ["c"%string] (External 1)).
  - reflexivity.
  - reflexivity.
  - reflexivity.
  - intros j c Hj Hc. destruct j as [|j]; [|lia].
    injection Hc as <-. eexists. reflexivity.
Defined.

(** X4 at the lists ["a"; "b"] and ["c"] with batch size 2. *)
Lemma embed_of_concatenation_witness :
  exists r1 r2 vs1 vs2,
    embed_sync (Toy.cls_service 2) (Lst ["a"; "b"]%string) = Ok r1 /\
    embed_sync (Toy.cls_service 2) (Lst ["c"%string]) = Ok r2 /\
    r1 = py_matrix vs1 /\ r2 = py_matrix vs2 /\
    embed_sync (Toy.cls_service 2) (Lst (["a"%string; "b"%string] ++ ["c"%string])%list) =
      Ok (py_matrix (vs1 ++ vs2)) /\
    embed_async (Toy.cls_service 2) [1%nat] (Lst (["a"%string; "b"%string] ++ ["c"%string])%list) =
      Ok (py_matrix (vs1 ++ vs2)).
Proof.
  destruct (@cls_sync_is_one_call 2 ["a"; "b"]%string) as (a1 & _ & H1);
    [discriminate | simpl; lia |].
  destruct (@cls_sync_is_one_call 2 ["c"%string]) as (a2 & _ & H2);
    [discriminate | simpl; lia |].
  destruct (@embed_of_concatenation (Toy.cls_service 2) 2 [1%nat] 1
              ["a"; "b"]%string ["c"%string] (tolist a1) (tolist a2)
              (@cls_well_shaped 2%Z) eq_refl H1 H2)
    as (vs1 & vs2 & E1 & E2 & Hs & Ha).
  exists (tolist a1), (tolist a2), vs1, vs2. auto 10.
Defined.

(** X5 at two texts and batch size 32. *)
Lemma list_within_batch_size_is_one_call_witness :
  embed_sync (Toy.cls_service 32) (Lst ["a"; "b"]%string) =
    (a <- _embed_batch (Toy.cls_service 32) ["a"; "b"]%string ;; Ok (tolist a)) /\
  embed_async (Toy.cls_service 32) [] (Lst ["a"; "b"]%string) =
    (a <- _embed_batch (Toy.cls_service 32) ["a"; "b"]%string ;; Ok (tolist a)).
Proof.
  apply (@list_within_batch_size_is_one_call (Toy.cls_service 32) []
           ["a"; "b"]%string).
  - discriminate.
  - simpl. lia.
Defined.

(** X6 at three texts and batch size 2. *)
Lemma chunks_nonempty_and_full_witness :
  Forall (fun c => c <> []) [["a"; "b"]; ["c"]]%string /\
  forall i c, (S i < 2)%nat -> nth_error [["a"; "b"]; ["c"]]%string i = Some c ->
              Z.of_nat (length c) = 2%Z.
Proof.
  apply (@chunks_nonempty_and_full (Toy.cls_service 2) ["a"; "b"; "c"]%string
           [["a"; "b"]; ["c"]]%string).
  reflexivity.
Defined.

(** X7 at two batches of token vectors that differ on a padding row only. *)
Lemma masked_positions_are_ignored_witness :
  exists pooled pooled',
    _mean_pooling Toy.two_texts_tokens Toy.second_row_padding = Ok pooled /\
    _mean_pooling ToyFailures.two_texts_tokens_alt Toy.second_row_padding
      = Ok pooled' /\
    forall b h, t2_at pooled' b h = t2_at pooled b h.
Proof.
  pose proof (@mean_pooling_formula Toy.two_texts_tokens Toy.second_row_padding
                eq_refl eq_refl) as H1.
  pose proof (@mean_pooling_formula ToyFailures.two_texts_tokens_alt
                Toy.second_row_padding eq_refl eq_refl) as H2.
  eexists. eexists. split; [exact H1|]. split; [exact H2|].
  refine (proj2 (proj2 (@masked_positions_are_ignored Toy.two_texts_tokens
            ToyFailures.two_texts_tokens_alt Toy.second_row_padding _ _
            eq_refl eq_refl eq_refl eq_refl eq_refl H1 H2 _))).
  intros b s h _ Hmask. destruct b as [|b]; [reflexivity|].
  exfalso. apply Hmask. reflexivity.
Defined.


(** X10 at a list of one query. *)
Lemma embed_batch_route_agrees_with_embed_route_witness :
  Api.embed_batch (Some (Toy.cls_service 32)) [] ["a"%string] =
  Api.embed (Some (Toy.cls_service 32)) [] (Lst ["a"%string]).
Proof.
  apply (@embed_batch_route_agrees_with_embed_route
           (Some (Toy.cls_service 32)) [] ["a"%string]).
  discriminate.
Defined.

(** X11 on the [CLS] service: both routes report 2. *)
Lemma health_dimension_is_embed_dimension_witness :
  Lifecycle.health (Some ToyFailures.cls_instance) =
    Ok (Lifecycle.HealthResponse "healthy" "cls" "cpu" 2) /\
  Api.embed (Some (Toy.cls_service 32)) [] (Lst ["a"%string]) =
    Api.EmbeddingResponse (py_matrix [[3 / 5; 4 / 5]]) 2 1 /\
  (2 = 2)%Z.
Proof.
  assert (Hh : Lifecycle.health (Some ToyFailures.cls_instance) =
               Ok (Lifecycle.HealthResponse "healthy" "cls" "cpu" 2)).
  { unfold Lifecycle.health. cbn [ToyFailures.cls_instance core].
    rewrite cls_dimension. reflexivity. }
  split; [exact Hh|]. split; [exact cls_embed_route_a|].
  apply (@health_dimension_is_embed_dimension ToyFailures.cls_instance 2 []
           (Lst ["a"%string]) [] (py_matrix [[3 / 5; 4 / 5]]) 2 1 2
           "healthy" "cls" "cpu" (@cls_well_shaped 32%Z) Hh).
  left. exact cls_embed_route_a.
Defined.

(** X12 on a service whose encoder always fails. *)
Lemma health_probe_failure_escapes_witness :
  Lifecycle.health (Some ToyFailures.failing_instance) = Raise (External 1) /\
  Api.embed (Some ToyFailures.counting_failure_service) [] (Str "test") =
    Api.HTTPException 500 "Error generating embeddings: ".
Proof.
  apply (@health_probe_failure_escapes ToyFailures.failing_instance []
           (External 1)).
  - reflexivity.
  - reflexivity.
Defined.

(** X13 in an environment with the mps accelerator in which torch reports
    no thread: the pool has 8 workers. *)
Lemma constructor_pool_and_device_witness :
  (exists w,
     __init__ idle_mps_env "m" None 32 512 =
       Ok (mkInstance (mkService 32 512 Toy.cls_tokenizer Toy.const_model)
                      "m" mps w) /\
     w = 8%Z) /\
  (forall w, (w <= 0)%Z ->
     exists msg, __init__ idle_mps_env "m" (Some w) 32 512 = Raise (ValueError msg)).
Proof.
  destruct (@constructor_pool_and_device idle_mps_env "m" 32 512
              Toy.cls_tokenizer Toy.const_model eq_refl eq_refl)
    as (_ & Hok & _ & _).
  - simpl. lia.
  - destruct Hok as ((w & Hw & _ & Hv) & Hneg).
    + intros [Hcpu _]. discriminate Hcpu.
    + split; [|exact Hneg]. exists w. split; [exact Hw | exact Hv].
Defined.

(** X14 in the same environment. *)
Lemma started_service_configuration_witness :
  batch_size (Toy.cls_service 32) = 32%Z /\
  (1 <= 4 <= 32)%Z /\
  exists a, _embed_batch (Toy.cls_service 32) ["test"%string] = Ok a.
Proof.
  destruct (@started_service_configuration toy_env
              (mkInstance (Toy.cls_service 32)
                 "togethercomputer/m2-bert-80M-32k-retrieval" cpu 4))
    as (Hb & _ & _ & _ & Hw & Ha).
  - unfold Lifecycle.lifespan_startup.
    change (__init__ toy_env "togethercomputer/m2-bert-80M-32k-retrieval" None 32 512)
      with (Ok (mkInstance (Toy.cls_service 32)
                  "togethercomputer/m2-bert-80M-32k-retrieval" cpu 4)).
    cbn [bind core]. rewrite cls_dimension. reflexivity.
  - auto.
Defined.

End Further_witnesses.

Section Further_witnesses_2.

Local Open Scope R_scope.

(** X15 at three texts and batch size 2 on an encoder that fails on the
    second chunk only, the second chunk finishing first. *)
Lemma single_failure_is_reported_alike_witness :
  embed_sync ToyFailures.short_batch_fails_service (Lst ["a"; "b"; "c"]%string) =
    Raise (External 1) /\
  embed_async ToyFailures.short_batch_fails_service [1%nat]
              (Lst ["a"; "b"; "c"]%string) = Raise (External 1).
Proof.
  apply (@single_failure_is_reported_alike ToyFailures.short_batch_fails_service
           [1%nat] (Lst ["a"; "b"; "c"]%string) [["a"; "b"]; ["c"]]%string 1
           ["c"%string] (External 1)).
  - reflexivity.
  - reflexivity.
  - reflexivity.
  - intros j c Hj Hc. destruct j as [|[|j]].
    + injection Hc as <-. eexists. reflexivity.
    + congruence.
    + destruct j; discriminate.
Defined.

End Further_witnesses_2.
